(** * The Objective-C binding generator of package [bind] (gobind -lang=objc)

    A shallow embedding of the generator that writes the Objective-C caller
    stubs ([objcGen] with [init], [genM], [funcSummary], [genFunc],
    [genStructM], [objcType]) and of the generated Go dispatcher for the
    test package ([go_testpkg.go]), together with the properties of the
    call-site codes, of signature normalisation, of the diagnostics and of
    the emitted stubs. *)

From Stdlib Require Import String Ascii List ZArith Lia Bool Arith.
Import ListNotations.
Local Open Scope list_scope.
Local Open Scope string_scope.
Set Warnings "-register-all".

(** ** Text helpers *)

(** The double-quote character, as a one-character string. *)
Definition dq : string := String (ascii_of_nat 34) EmptyString.

(** [%q] applied to a Go identifier: identifiers hold no character that
    [strconv.Quote] escapes, so the text is the identifier between quotes. *)
Definition fmt_q (s : string) : string := dq ++ s ++ dq.

Definition is_upper (c : ascii) : bool :=
  (65 <=? nat_of_ascii c)%nat && (nat_of_ascii c <=? 90)%nat.

Definition is_lower (c : ascii) : bool :=
  (97 <=? nat_of_ascii c)%nat && (nat_of_ascii c <=? 122)%nat.

(** [unicode.ToUpper] on the ASCII range.  Strings are byte strings here; a
    name whose first rune is outside ASCII is left as it is. *)
Definition to_upper (c : ascii) : ascii :=
  if is_lower c then ascii_of_nat (nat_of_ascii c - 32) else c.

(** [capitalize]: upper-cases the first rune.  On the empty string
    [utf8.DecodeRuneInString] yields (RuneError, 0), so the result is the
    three bytes of U+FFFD. *)
Definition capitalize (n : string) : string :=
  match n with
  | EmptyString =>
      String (ascii_of_nat 239)
        (String (ascii_of_nat 191) (String (ascii_of_nat 189) EmptyString))
  | String c rest => String (to_upper c) rest
  end.

(** [Object.Exported]: the name starts with an upper-case letter. *)
Definition Exported (name : string) : bool :=
  match name with
  | EmptyString => false
  | String c _ => is_upper c
  end.

(** [strings.Join]. *)
Fixpoint join (l : list string) (sep : string) : string :=
  match l with
  | [] => ""
  | x :: xs =>
      match xs with
      | [] => x
      | _ :: _ => x ++ sep ++ join xs sep
      end
  end.

(** [s[:len(s)-1]].  The generator applies it to results of [objcType] only,
    which are never empty (lemma [objcType_nonempty]), so the slice is
    always in range. *)
Fixpoint but_last (s : string) : string :=
  match s with
  | EmptyString => EmptyString
  | String c rest =>
      match rest with
      | EmptyString => EmptyString
      | String _ _ => String c (but_last rest)
      end
  end.

(** Iteration with the index, as in [for i, x := range l]. *)
Definition indexed {A : Type} (l : list A) : list (nat * A) :=
  combine (seq 0 (length l)) l.

(** ** Number formatting and the reading of C literals *)

(** The digit table of [strconv]. *)
Definition digit_char (d : Z) : ascii :=
  match String.get (Z.to_nat d) "0123456789abcdef" with
  | Some c => c
  | None => "0"%char
  end.

(** The digit loop of [strconv.FormatInt] on a non-negative value. *)
Fixpoint format_bits (fuel : nat) (base u : Z) (acc : string) : string :=
  match fuel with
  | O => acc
  | S k =>
      if (u <? base)%Z then String (digit_char u) acc
      else format_bits k base (u / base)%Z (String (digit_char (u mod base)%Z) acc)
  end.

(** [%d] and [%x] of a slice index. *)
Definition fmt_d (i : Z) : string := format_bits (S (Z.to_nat i)) 10 i "".
Definition fmt_x (i : Z) : string := format_bits (S (Z.to_nat i)) 16 i "".

Definition digit_val (c : ascii) : option Z :=
  let n := Z.of_nat (nat_of_ascii c) in
  if (48 <=? n)%Z && (n <=? 57)%Z then Some (n - 48)%Z
  else if (97 <=? n)%Z && (n <=? 102)%Z then Some (n - 87)%Z
  else if (65 <=? n)%Z && (n <=? 70)%Z then Some (n - 55)%Z
  else None.

Fixpoint read_digits (base : Z) (s : string) (acc : Z) : option Z :=
  match s with
  | EmptyString => Some acc
  | String c r =>
      match digit_val c with
      | Some d => if (d <? base)%Z then read_digits base r (acc * base + d)%Z else None
      | None => None
      end
  end.

(** Removes one pair of enclosing parentheses, when there is one. *)
Definition strip_parens (s : string) : string :=
  match s with
  | String "("%char r =>
      match String.get (String.length r - 1) r with
      | Some ")"%char => but_last r
      | _ => s
      end
  | _ => s
  end.

(** The value the C compiler gives an integer literal that stands for a
    macro: [0x] starts a hexadecimal literal, another leading [0] an octal
    one, anything else is decimal. *)
Definition c_int_literal (s : string) : option Z :=
  match strip_parens s with
  | EmptyString => None
  | String "0"%char (String "x"%char EmptyString) => None
  | String "0"%char (String "x"%char r) => read_digits 16 r 0
  | String "0"%char r => read_digits 8 r 0
  | r => read_digits 10 r 0
  end.

(** The value of a C string literal without escapes. *)
Definition c_string_literal (s : string) : option string :=
  match s with
  | String q r =>
      if (q =? ascii_of_nat 34)%char then
        match String.get (String.length r - 1) r with
        | Some q' => if (q' =? ascii_of_nat 34)%char then Some (but_last r) else None
        | None => None
        end
      else None
  | EmptyString => None
  end.

(** ** The fragment of go/types the generator inspects *)

Module types.

Inductive BasicKind : Set :=
| Invalid | Bool | Int | Int8 | Int16 | Int32 | Int64
| Uint | Uint8 | Uint16 | Uint32 | Uint64 | Uintptr
| Float32 | Float64 | Complex64 | Complex128 | String | UnsafePointer.

(** A [Named] type carries the path and the name of its package, its own
    name and its underlying type.  [Error] is the predeclared [error], the
    one named type of the universe, which has no package; like [Named] it
    is a [*types.Named].  The fields of a struct are not part of the type
    here: the generator reaches them through [exportedFields] (see
    [TypeName]). *)
Inductive Type_ : Set :=
| Basic (k : BasicKind)
| Array (len : Z) (elem : Type_)
| Slice (elem : Type_)
| Struct
| Pointer (elem : Type_)
| Signature
| Interface
| Map (key elem : Type_)
| Chan (elem : Type_)
| Named (pkgPath pkgName name : string) (underlying : Type_)
| Error.

End types.

Abbreviation Type_ := types.Type_.

(** A [*types.Var]: a parameter, a result or a field. *)
Record Var : Set := mkVar { v_name : string; v_type : Type_ }.

(** A [*types.Func] with its signature. *)
Record Func : Set := mkFunc {
  f_name : string;
  f_params : list Var;
  f_results : list Var
}.

(** A [*types.TypeName] of the package scope.  Its type is the named type
    [Named pkg name tn_underlying]; [tn_fields] is what [exportedFields]
    returns for its struct and [tn_methods] what [exportedMethodSet] returns
    for the pointer to it (both helpers live outside the generator file). *)
Record TypeName : Set := mkTypeName {
  tn_name : string;
  tn_underlying : Type_;
  tn_fields : list Var;
  tn_methods : list Func
}.

Inductive Object : Set :=
| OFunc (f : Func)
| OTypeName (t : TypeName)
| OConst (name : string)
| OVar (name : string).

Definition obj_name (o : Object) : string :=
  match o with
  | OFunc f => f_name f
  | OTypeName t => tn_name t
  | OConst n => n
  | OVar n => n
  end.

(** A [*types.Package]; [Scope] lists the objects in the order of
    [scope.Names()], which go/types returns sorted. *)
Record Package : Set := mkPackage {
  Path : string;
  Name : string;
  Scope : list Object
}.

(** [isErrorType]: identity with the universe's [error]. *)
Definition isErrorType (t : Type_) : bool :=
  match t with
  | types.Error => true
  | _ => false
  end.

(** ** Diagnostics *)

(** One constructor per [g.errorf] call of the generator. *)
Inductive diag : Set :=
| ErrSecondResult (obj : string)
| ErrTooManyResults (obj : string)
| ErrUnsupportedType (t : Type_)
| ErrUnsupportedPointer (t : Type_)
| ErrForeignPackage (n npkg gpkg : string)
| ErrUnsupportedNamed (t : Type_)
| ErrUnsupportedShape (t : Type_).

Definition ErrorList : Set := list diag.

(** The fixed part of each message. *)
Definition diag_message (d : diag) : string :=
  match d with
  | ErrSecondResult _ => "second result value must be of type error: "
  | ErrTooManyResults _ => "too many result values: "
  | ErrUnsupportedType _ => "unsupported type: "
  | ErrUnsupportedPointer _ => "unsupported pointer to type: "
  | ErrForeignPackage _ _ _ => "type %s is in package %s; only types defined in package %s is supported"
  | ErrUnsupportedNamed _ => "unsupported, named type "
  | ErrUnsupportedShape _ => "unsupported type: "
  end.

(** The three kinds of generation-time error. *)
Inductive diag_class : Set := TooManyResults | ResultNotError | UnsupportedType.

Definition classify (d : diag) : diag_class :=
  match d with
  | ErrSecondResult _ => ResultNotError
  | ErrTooManyResults _ => TooManyResults
  | _ => UnsupportedType
  end.

(** ** The emitted program

    The generator prints Objective-C text through the embedded printer.  The
    text is kept here in structured form, one constructor per kind of
    printed line, and [render_*] gives the text back. *)

Inductive lval : Set :=
| LVar (x : string)          (* x *)
| LDeref (x : string).       (* *x *)

Inductive expr : Set :=
| EVar (x : string)                     (* x *)
| ERefOf (x : string)                   (* x.ref *)
| EObjOf (r : string)                   (* r.obj *)
| ERead (st : string)                   (* go_seq_read<st>(&out_) *)
| EAllocInit (cls r : string)           (* [[cls alloc] initWithRef:r] *)
| ENSError                              (* [NSError errorWithDomain:errDomain code:1 userInfo:details] *)
| ELenIsZero (m : string).              (* ([m length] == 0) *)

Inductive cond : Set :=
| CIsNull (l : lval)                    (* l == NULL *)
| CNotNull (x : string)                 (* x != NULL *)
| CMsgAndOut (m x : string).            (* [m length] != 0 && x != nil *)

Inductive stmt : Set :=
| SBuf (b : string)                     (* GoSeq b = {}; *)
| SWrite (st : string) (e : expr)       (* go_seq_write<st>(&in_, e); *)
| SSend (pkgDesc callDesc : string)     (* go_seq_send(pkgDesc, callDesc, &in_, &out_); *)
| SDecl (ty x : string) (e : expr)      (* ty x = e; *)
| SAssign (l : lval) (e : expr)         (* l = e; *)
| SNewDetails                           (* NSMutableDictionary *details = [NSMutableDictionary dictionary]; *)
| SSetDetail (m : string)               (* [details setValue:m forKey:NSLocalizedDescriptionKey]; *)
| SIf (c : cond) (body : list stmt)     (* if (c) { body } *)
| SFree (b : string)                    (* go_seq_free(&b); *)
| SReturn (e : expr).                   (* return e; *)

(** What [genM] prints: plain lines, macro definitions, and the function
    and method definitions with their bodies. *)
Inductive item : Set :=
| IText (s : string)
| IDefine (macro value : string)            (* #define macro value *)
| IFunc (header : string) (body : list stmt)    (* header { body } *)
| IMethod (header : string) (body : list stmt)  (* - header { body } *)
| IInitWithRef.                             (* - (id)initWithRef:(id)ref { ... } *)

Definition render_lval (l : lval) : string :=
  match l with
  | LVar x => x
  | LDeref x => "*" ++ x
  end.

Definition render_expr (e : expr) : string :=
  match e with
  | EVar x => x
  | ERefOf x => x ++ ".ref"
  | EObjOf r => r ++ ".obj"
  | ERead st => "go_seq_read" ++ st ++ "(&out_)"
  | EAllocInit cls r => "[[" ++ cls ++ " alloc] initWithRef:" ++ r ++ "]"
  | ENSError => "[NSError errorWithDomain:errDomain code:1 userInfo:details]"
  | ELenIsZero m => "([" ++ m ++ " length] == 0)"
  end.

Definition render_cond (c : cond) : string :=
  match c with
  | CIsNull l => render_lval l ++ " == NULL"
  | CNotNull x => x ++ " != NULL"
  | CMsgAndOut m x => "[" ++ m ++ " length] != 0 && " ++ x ++ " != nil"
  end.

(** The printed lines of a statement, each with its indentation depth. *)
Fixpoint render_stmt (depth : nat) (s : stmt) : list (nat * string) :=
  match s with
  | SBuf b => [(depth, "GoSeq " ++ b ++ " = {};")]
  | SWrite st e => [(depth, "go_seq_write" ++ st ++ "(&in_, " ++ render_expr e ++ ");")]
  | SSend d c => [(depth, "go_seq_send(" ++ d ++ ", " ++ c ++ ", &in_, &out_);")]
  | SDecl ty x e => [(depth, ty ++ " " ++ x ++ " = " ++ render_expr e ++ ";")]
  | SAssign l e => [(depth, render_lval l ++ " = " ++ render_expr e ++ ";")]
  | SNewDetails =>
      [(depth, "NSMutableDictionary *details = [NSMutableDictionary dictionary];")]
  | SSetDetail m =>
      [(depth, "[details setValue:" ++ m ++ " forKey:NSLocalizedDescriptionKey];")]
  | SIf c body =>
      (depth, "if (" ++ render_cond c ++ ") {")
        :: (flat_map (render_stmt (S depth)) body ++ [(depth, "}")])%list
  | SFree b => [(depth, "go_seq_free(&" ++ b ++ ");")]
  | SReturn e => [(depth, "return " ++ render_expr e ++ ";")]
  end.

Definition render_item (i : item) : list (nat * string) :=
  match i with
  | IText s => [(0, s)]
  | IDefine m v => [(0, "#define " ++ m ++ " " ++ v)]
  | IFunc h body => (0, h ++ " {") :: (flat_map (render_stmt 1) body ++ [(0, "}")])%list
  | IMethod h body =>
      (0, "- " ++ h ++ " {")
        :: (flat_map (render_stmt 1) body ++ [(0, "}"); (0, "")])%list
  | IInitWithRef =>
      [(0, "- (id)initWithRef:(id)ref {");
       (1, "self = [super init];");
       (1, "if (self) { _ref = ref; }");
       (1, "return self;");
       (0, "}"); (0, "")]
  end.

(** ** The generator's effects

    A generator method appends to [g.err] and to the printer, and it may
    panic (a nil dereference).  Both logs are append-only and are read only
    when generation ends, so a computation returns what it appended. *)

Inductive outcome (A : Type) : Type :=
| Done (a : A) (err : ErrorList) (out : list item)
| Panicked (err : ErrorList) (out : list item).

Arguments Done {A} a err out.
Arguments Panicked {A} err out.

Definition pure {A : Type} (a : A) : outcome A := Done a [] [].

Definition bind {A B : Type} (m : outcome A) (f : A -> outcome B) : outcome B :=
  match m with
  | Done a e o =>
      match f a with
      | Done b e' o' => Done b (e ++ e')%list (o ++ o')%list
      | Panicked e' o' => Panicked (e ++ e')%list (o ++ o')%list
      end
  | Panicked e o => Panicked e o
  end.

Notation "x <- m ;; k" := (bind m (fun x => k))
  (at level 61, m at next level, right associativity).
Notation "m ;;; k" := (bind m (fun _ => k))
  (at level 61, right associativity).

(** [g.errorf]. *)
Definition errorf (d : diag) : outcome unit := Done tt [d] [].

(** [g.Printf], for one item. *)
Definition Printf (i : item) : outcome unit := Done tt [] [i].

(** A nil-pointer dereference. *)
Definition panic {A : Type} : outcome A := Panicked [] [].

(** A pure value with the diagnostics recorded on the way. *)
Definition logged {A : Type} (p : A * ErrorList) : outcome A :=
  Done (fst p) (snd p) [].

Fixpoint forM {A B : Type} (l : list A) (f : A -> outcome B) : outcome (list B) :=
  match l with
  | [] => pure []
  | x :: xs => y <- f x ;; ys <- forM xs f ;; pure (y :: ys)
  end.

Fixpoint forM_ {A : Type} (l : list A) (f : A -> outcome unit) : outcome unit :=
  match l with
  | [] => pure tt
  | x :: xs => f x ;;; forM_ xs f
  end.

Fixpoint foldM {A S : Type} (f : S -> A -> outcome S) (l : list A) (s : S) : outcome S :=
  match l with
  | [] => pure s
  | x :: xs => s' <- f s x ;; foldM f xs s'
  end.

Definition out_of {A : Type} (m : outcome A) : list item :=
  match m with
  | Done _ _ o => o
  | Panicked _ o => o
  end.

Definition err_of {A : Type} (m : outcome A) : ErrorList :=
  match m with
  | Done _ e _ => e
  | Panicked e _ => e
  end.

Definition completes {A : Type} (m : outcome A) : bool :=
  match m with
  | Done _ _ _ => true
  | Panicked _ _ => false
  end.

(** ** The generator *)

(** The helpers of package [bind] that the generator calls and that are
    defined in other files of the package: [seqType] names the seq
    reader and writer of a type, [paramName] gives the name of the i-th
    parameter, [paramRE] matches the synthesised parameter names. *)
Record helpers : Type := mkHelpers {
  seqType : Type_ -> string;
  paramName : list Var -> nat -> string;
  paramRE_MatchString : string -> bool
}.

(** The generator.  The embedded [*printer] is represented by the items
    that a method returns (see [outcome]); [fset] is not read by the
    generator. *)
Record objcGen : Set := mkGen {
  pkg : Package;
  err : ErrorList;
  (* fields set by init. *)
  pkgName : string;
  namePrefix : string;
  funcs : list Func;
  names : list TypeName
}.

Record paramInfo : Set := mkParam { typ : Type_; name : string }.

Record funcSummary : Set := mkSummary {
  s_name : string;
  s_ret : string;
  s_params : list paramInfo;
  s_retParams : list paramInfo
}.

(** The loop of [init] over [scope.Names()]. *)
Fixpoint init_loop (objs : list Object) (fs : list Func) (ns : list TypeName)
  : list Func * list TypeName :=
  match objs with
  | [] => (fs, ns)
  | obj :: rest =>
      if negb (Exported (obj_name obj)) then init_loop rest fs ns
      else
        match obj with
        | OFunc f => init_loop rest (fs ++ [f])%list ns
        | OTypeName t => init_loop rest fs (ns ++ [t])%list
        | _ => init_loop rest fs ns
        end
  end.

Definition init (g : objcGen) : objcGen :=
  let pn := Name (pkg g) in
  let fn := init_loop (Scope (pkg g)) [] [] in
  {| pkg := pkg g; err := err g;
     pkgName := pn; namePrefix := "Go" ++ capitalize pn;
     funcs := fst fn; names := snd fn |}.

(** The recursion of [objcType], over what it reads from the generator: the
    package under generation ([g.pkg], by its path, and its name) and
    [g.namePrefix].  The result is the Objective-C type of a Go type, with
    the diagnostics recorded on the way. *)
Fixpoint objcType_in (path pname prefix : string) (t : Type_) : string * ErrorList :=
  match t with
  | types.Error => ("NSError*", [])
  | types.Basic k =>
      match k with
      | types.Bool => ("BOOL", [])
      | types.Int => ("int", [])
      | types.Int8 => ("int8_t", [])
      | types.Int16 => ("int16_t", [])
      | types.Int32 => ("int32_t", [])
      | types.Int64 => ("int64_t", [])
      | types.Uint8 => ("byte", [])
      | types.Uint16 => ("uint16_t", [])
      | types.Uint32 => ("uint32_t", [])
      | types.Uint64 => ("uint64_t", [])
      | types.Float32 => ("float", [])
      | types.Float64 => ("double", [])
      | types.String => ("NSString*", [])
      | _ => ("TODO", [ErrUnsupportedType t])
      end
  | types.Slice e =>
      let (elem, errs) := objcType_in path pname prefix e in
      if elem =? "byte" then ("NSData*", errs)
      else ("TODO", (errs ++ [ErrUnsupportedType t])%list)
  | types.Pointer e =>
      match e with
      | types.Named _ _ _ _ | types.Error =>
          let (s, errs) := objcType_in path pname prefix e in (s ++ "*", errs)
      | _ => ("TODO", [ErrUnsupportedPointer t])
      end
  | types.Named npath npname n u =>
      if negb (npath =? path)
      then ("TODO", [ErrForeignPackage n npname pname])
      else
        match u with
        | types.Interface => (prefix ++ n ++ "*", [])
        | types.Struct => (prefix ++ n, [])
        | _ => ("TODO", [ErrUnsupportedNamed t])
        end
  | _ => ("TODO", [ErrUnsupportedShape t])
  end.

(** [g.objcType]. *)
Definition objcType (g : objcGen) (t : Type_) : string * ErrorList :=
  objcType_in (Path (pkg g)) (Name (pkg g)) (namePrefix g) t.

(** [returnsVal]. *)
Definition returnsVal (s : funcSummary) : bool :=
  match s_retParams s with
  | [p] => negb (isErrorType (typ p))
  | _ => false
  end.

(** [asFunc]: the C prototype of a free function. *)
Definition asFunc (s : funcSummary) (g : objcGen) : outcome string :=
  params <- forM (s_params s)
              (fun p => t <- logged (objcType g (typ p)) ;; pure (t ++ " " ++ name p)) ;;
  outs <- (if negb (returnsVal s)
           then forM (s_retParams s)
                  (fun p => t <- logged (objcType g (typ p)) ;; pure (t ++ "* " ++ name p))
           else pure []) ;;
  pure (s_ret s ++ " " ++ namePrefix g ++ s_name s
          ++ "(" ++ join (params ++ outs)%list ", " ++ ")").

(** [asMethod]: the Objective-C method signature. *)
Definition asMethod (s : funcSummary) (g : objcGen) : outcome string :=
  params <- forM (indexed (s_params s))
              (fun ip =>
                 let key := if Nat.eqb (fst ip) 0 then "" else name (snd ip) in
                 t <- logged (objcType g (typ (snd ip))) ;;
                 pure (key ++ ":(" ++ t ++ ")" ++ name (snd ip))) ;;
  params <- (if negb (returnsVal s)
             then foldM (fun (acc : list string) p =>
                           let key := if Nat.ltb 0 (length acc) then name p else "" in
                           t <- logged (objcType g (typ p)) ;;
                           pure (acc ++ [(key ++ ":(" ++ (t ++ "*") ++ ")" ++ name p)%string])%list)
                        (s_retParams s) params
             else pure params) ;;
  pure ("(" ++ s_ret s ++ ")" ++ s_name s ++ join params " ").

Section Generator.

(** The helpers are fixed but arbitrary. *)
Variable hp : helpers.

(** [g.seqType]. *)
Definition objcGen_seqType (t : Type_) : string :=
  let s := seqType hp t in
  if s =? "String" then "UTF8" else s.

(** The name given to a value result. *)
Definition result_name (v : Var) : string :=
  if (v_name v =? "") || paramRE_MatchString hp (v_name v) then "ret0_" else v_name v.

(** [g.funcSummary]; [None] is the nil summary. *)
Definition objcGen_funcSummary (g : objcGen) (obj : Func) : outcome (option funcSummary) :=
  let params :=
    map (fun ip => {| typ := v_type (snd ip); name := paramName hp (f_params obj) (fst ip) |})
        (indexed (f_params obj)) in
  match f_results obj with
  | [] =>
      pure (Some {| s_name := f_name obj; s_ret := "void";
                    s_params := params; s_retParams := [] |})
  | [p] =>
      if isErrorType (v_type p) then
        pure (Some {| s_name := f_name obj; s_ret := "BOOL"; s_params := params;
                      s_retParams := [ {| typ := v_type p; name := "error" |} ] |})
      else
        r <- logged (objcType g (v_type p)) ;;
        pure (Some {| s_name := f_name obj; s_ret := r; s_params := params;
                      s_retParams := [ {| typ := v_type p; name := result_name p |} ] |})
  | [r0; r1] =>
      if negb (isErrorType (v_type r1)) then
        errorf (ErrSecondResult (f_name obj)) ;;; pure None
      else
        pure (Some {| s_name := f_name obj; s_ret := "BOOL"; s_params := params;
                      s_retParams := [ {| typ := v_type r0; name := result_name r0 |};
                                       {| typ := v_type r1; name := "error" |} ] |})
  | _ =>
      errorf (ErrTooManyResults (f_name obj)) ;;; pure None
  end.

(** The write of one parameter into [in_]. *)
Definition write_param (p : paramInfo) : stmt :=
  let st := objcGen_seqType (typ p) in
  if st =? "Ref" then SWrite st (ERefOf (name p)) else SWrite st (EVar (name p)).

(** The decoding of the single value result of a stub that returns it. *)
Definition read_value (g : objcGen) (p : paramInfo) : outcome (list stmt) :=
  if negb (objcGen_seqType (typ p) =? "Ref") then
    t <- logged (objcType g (typ p)) ;;
    pure [SDecl t (name p) (ERead (objcGen_seqType (typ p)))]
  else
    ptype <- logged (objcType g (typ p)) ;;
    pure [SDecl "GoSeqRef*" (name p ++ "_ref") (ERead "Ref");
          SDecl ptype (name p) (EObjOf (name p ++ "_ref"));
          SIf (CIsNull (LVar (name p)))
            [SAssign (LVar (name p)) (EAllocInit (but_last ptype) (name p ++ "_ref"))]].

(** The decoding of one result of a stub with out-parameters. *)
Definition read_out (g : objcGen) (p : paramInfo) : outcome (list stmt) :=
  if isErrorType (typ p) then
    pure [SDecl "NSString*" ("_" ++ name p) (ERead "UTF8");
          SIf (CMsgAndOut ("_" ++ name p) (name p))
            [SNewDetails;
             SSetDetail ("_" ++ name p);
             SAssign (LDeref (name p)) ENSError]]
  else if negb (objcGen_seqType (typ p) =? "Ref") then
    t <- logged (objcType g (typ p)) ;;
    pure [SDecl t (name p ++ "_val") (ERead (objcGen_seqType (typ p)));
          SIf (CNotNull (name p))
            [SAssign (LDeref (name p)) (EVar (name p ++ "_val"))]]
  else
    ptype <- logged (objcType g (typ p)) ;;
    pure [SDecl "GoSeqRef*" (name p ++ "_ref") (ERead "Ref");
          SIf (CNotNull (name p))
            [SAssign (LDeref (name p)) (EObjOf (name p ++ "_ref"));
             SIf (CIsNull (LDeref (name p)))
               [SAssign (LDeref (name p)) (EAllocInit (but_last ptype) (name p ++ "_ref"))]]].

(** The closing [return] of a stub. *)
Definition return_stmt (s : funcSummary) : list stmt :=
  match last (map Some (s_retParams s)) None with
  | Some p =>
      if isErrorType (typ p) then [SReturn (ELenIsZero ("_" ++ name p))]
      else [SReturn (EVar (name p))]
  | None => []
  end.

(** [g.genFunc]: the body of a stub. *)
Definition genFunc (g : objcGen) (pkgDesc callDesc : string) (s : funcSummary)
    (isMethod : bool) : outcome (list stmt) :=
  let head :=
    ([SBuf "in_"; SBuf "out_"]
       ++ (if isMethod then [SWrite "Ref" (ERefOf "self")] else [])
       ++ map write_param (s_params s)
       ++ [SSend pkgDesc callDesc])%list in
  reads <- (if returnsVal s then
              match s_retParams s with
              | p :: _ => read_value g p
              | [] => pure []
              end
            else
              blocks <- forM (s_retParams s) (read_out g) ;; pure (concat blocks)) ;;
  pure (head ++ reads ++ [SFree "in_"; SFree "out_"] ++ return_stmt s)%list.

(** [g.genFuncM]. *)
Definition genFuncM (g : objcGen) (obj : Func) : outcome unit :=
  s <- objcGen_funcSummary g obj ;;
  match s with
  | None => pure tt
  | Some s =>
      h <- asFunc s g ;;
      body <- genFunc g "_DESCRIPTOR_" ("_CALL_" ++ s_name s ++ "_") s false ;;
      Printf (IFunc h body)
  end.

(** [g.genInterfaceM] only logs a TODO. *)
Definition genInterfaceM (g : objcGen) (obj : TypeName) : outcome unit := pure tt.

(** The macro prefix of a struct. *)
Definition struct_desc (g : objcGen) (obj : TypeName) : string :=
  "_GO_" ++ pkgName g ++ "_" ++ tn_name obj.

(** The accessors of one exported field. *)
Definition genField (g : objcGen) (desc : string) (f : Var) : outcome unit :=
  (* getter *)
  r <- logged (objcType g (v_type f)) ;;
  let s := {| s_name := v_name f; s_ret := r; s_params := [];
              s_retParams := [ {| typ := v_type f; name := "ret_" |} ] |} in
  h <- asMethod s g ;;
  body <- genFunc g (desc ++ "_DESCRIPTOR_") (desc ++ "_FIELD_" ++ v_name f ++ "_GET_") s true ;;
  Printf (IMethod h body) ;;;
  (* setter *)
  let s := {| s_name := "set" ++ v_name f; s_ret := "void";
              s_params := [ {| typ := v_type f; name := "v" |} ];
              s_retParams := [] |} in
  h <- asMethod s g ;;
  body <- genFunc g (desc ++ "_DESCRIPTOR_") (desc ++ "_FIELD_" ++ v_name f ++ "_SET_") s true ;;
  Printf (IMethod h body).

(** One exported method.  A nil summary is dereferenced by [asMethod]. *)
Definition genMethod (g : objcGen) (desc : string) (m : Func) : outcome unit :=
  s <- objcGen_funcSummary g m ;;
  match s with
  | None => panic
  | Some s =>
      h <- asMethod s g ;;
      body <- genFunc g (desc ++ "_DESCRIPTOR_") (desc ++ "_" ++ f_name m ++ "_") s true ;;
      Printf (IMethod h body)
  end.

(** The code literals that [genStructM] prints. *)
Definition field_get_literal (i : nat) : string := "(0x" ++ fmt_x (Z.of_nat i) ++ "0f)".
Definition field_set_literal (i : nat) : string := "(0x" ++ fmt_x (Z.of_nat i) ++ "1f)".
Definition method_literal (i : nat) : string := "(0x" ++ fmt_x (Z.of_nat i) ++ "0c)".

(** [g.genStructM]. *)
Definition genStructM (g : objcGen) (obj : TypeName) : outcome unit :=
  let fields := tn_fields obj in
  let methods := tn_methods obj in
  let desc := struct_desc g obj in
  Printf (IDefine (desc ++ "_DESCRIPTOR_")
            (dq ++ "go." ++ pkgName g ++ "." ++ tn_name obj ++ dq)) ;;;
  forM_ (indexed fields)
    (fun i_f =>
       Printf (IDefine (desc ++ "_FIELD_" ++ v_name (snd i_f) ++ "_GET_")
                 (field_get_literal (fst i_f))) ;;;
       Printf (IDefine (desc ++ "_FIELD_" ++ v_name (snd i_f) ++ "_SET_")
                 (field_set_literal (fst i_f)))) ;;;
  forM_ (indexed methods)
    (fun i_m =>
       Printf (IDefine (desc ++ "_" ++ f_name (snd i_m) ++ "_")
                 (method_literal (fst i_m)))) ;;;
  Printf (IText "") ;;;
  Printf (IText ("@implementation " ++ namePrefix g ++ tn_name obj ++ " {")) ;;;
  Printf (IText "}") ;;;
  Printf (IText "") ;;;
  Printf IInitWithRef ;;;
  forM_ fields (genField g desc) ;;;
  forM_ methods (genMethod g desc) ;;;
  Printf (IText "@end").

(** The lines before the macro definitions. *)
Definition preamble (g : objcGen) : list item :=
  [IText ("// Objective-C API for talking to " ++ Path (pkg g) ++ " Go package.");
   IText ("//   gobind -lang=objc " ++ Path (pkg g));
   IText "//";
   IText "// File is generated by gobind. Do not edit.";
   IText "";
   IText ("#include " ++ fmt_q (namePrefix g ++ ".h"));
   IText "#include <Foundation/Foundation.h>";
   IText ("#include " ++ fmt_q "seq.h");
   IText "";
   IText ("static NSString *errDomain = @" ++ fmt_q ("go." ++ Path (pkg g)) ++ ";");
   IText ""].

(** The body of [genM] after [g.init()], up to the final test of [g.err]. *)
Definition genM_body (g : objcGen) : outcome unit :=
  forM_ (preamble g) Printf ;;;
  Printf (IDefine "_DESCRIPTOR_" (fmt_q (pkgName g))) ;;;
  Printf (IText "") ;;;
  forM_ (indexed (funcs g))
    (fun i_obj =>
       Printf (IDefine ("_CALL_" ++ f_name (snd i_obj) ++ "_")
                 (fmt_d (Z.of_nat (fst i_obj) + 1)))) ;;;
  Printf (IText "") ;;;
  (* @implementation Go*_* : GoSeqProxyObject *)
  forM_ (names g)
    (fun obj =>
       match tn_underlying obj with
       | types.Struct => genStructM g obj
       | types.Interface => genInterfaceM g obj
       | _ => pure tt
       end ;;;
       Printf (IText "")) ;;;
  (* global functions. *)
  forM_ (funcs g) (fun obj => genFuncM g obj ;;; Printf (IText "")).

(** How a run of [genM] ends: it returns [g.err] when that list is not
    empty and nil otherwise, or it panics.  [r_gen] is the generator and
    [r_out] the printed items at that point. *)
Inductive run : Set :=
| Returned (g : objcGen) (out : list item) (e : option ErrorList)
| Crashed (g : objcGen) (out : list item).

Definition with_err (g : objcGen) (e : ErrorList) : objcGen :=
  {| pkg := pkg g; err := e; pkgName := pkgName g; namePrefix := namePrefix g;
     funcs := funcs g; names := names g |}.

(** [g.genM]. *)
Definition genM (g0 : objcGen) : run :=
  let g := init g0 in
  match genM_body g with
  | Done _ errs out =>
      let e := (err g ++ errs)%list in
      Returned (with_err g e) out (if Nat.ltb 0 (length e) then Some e else None)
  | Panicked errs out => Crashed (with_err g (err g ++ errs)%list) out
  end.

Definition r_gen (r : run) : objcGen :=
  match r with
  | Returned g _ _ => g
  | Crashed g _ => g
  end.

Definition r_out (r : run) : list item :=
  match r with
  | Returned _ o _ => o
  | Crashed _ o => o
  end.

End Generator.

(** ** Running an emitted stub

    A small machine for the statements of a stub body.  The seq runtime
    that the statements call ([go_seq_write*], [go_seq_send],
    [go_seq_read*], [go_seq_free]) is not among the sources and is modelled
    from the spec: a buffer is a sequence of items in the order written,
    without padding or tags of its own; here each item carries the name of
    the seq reader of its encoding ([UTF8], [Int64], [Ref], ...) so that a
    read with another reader is a fault.  Out-parameters are pointers into
    [mem]; a store through NULL is a fault. *)

Inductive value : Set :=
| VNull                      (* NULL, nil *)
| VPtr (l : nat)             (* the address of a cell of the caller *)
| VBool (b : bool)
| VInt (z : Z)
| VStr (s : string)
| VRef (h : Z)               (* a GoSeqRef for the handle h *)
| VObj (o : nat)             (* an object, by identity *)
| VErr (msg : string).       (* an NSError built from a message *)

Definition buffer : Set := list (string * value).

(** Modelled from the spec: the reference registry of the seq runtime, whose
    code ([go_seq_readRef], the [obj] property of [GoSeqRef]) is not among
    the sources.  [attached] maps a handle to the live object the registry
    holds for it; [wrappers] maps each allocated wrapper to the handle of
    the reference it was initialised with; [next_obj] is the identity the
    next allocation gets. *)
Record machine : Set := mkMachine {
  vars : list (string * value);
  mem : list (nat * value);
  in_buf : option buffer;
  out_buf : option buffer;
  details : option (option string);
  attached : list (Z * nat);
  wrappers : list (nat * Z);
  next_obj : nat;
  freed : list (string * buffer)
}.

Inductive fault : Set :=
| Unbound (x : string)
| NullStore (x : string)
| BadValue
| BufferFault.

Inductive res (A : Type) : Type :=
| Ok (a : A)
| Fault (f : fault).

Arguments Ok {A} a.
Arguments Fault {A} f.

Fixpoint assoc {B : Type} (x : string) (l : list (string * B)) : option B :=
  match l with
  | [] => None
  | (y, v) :: r => if x =? y then Some v else assoc x r
  end.

Fixpoint assocZ {B : Type} (x : Z) (l : list (Z * B)) : option B :=
  match l with
  | [] => None
  | (y, v) :: r => if (x =? y)%Z then Some v else assocZ x r
  end.

Fixpoint assocN {B : Type} (x : nat) (l : list (nat * B)) : option B :=
  match l with
  | [] => None
  | (y, v) :: r => if Nat.eqb x y then Some v else assocN x r
  end.

Definition lookup (x : string) (m : machine) : res value :=
  match assoc x (vars m) with
  | Some v => Ok v
  | None => Fault (Unbound x)
  end.

Definition set_vars (m : machine) (vs : list (string * value)) : machine :=
  mkMachine vs (mem m) (in_buf m) (out_buf m) (details m) (attached m)
    (wrappers m) (next_obj m) (freed m).

Definition set_mem (m : machine) (c : list (nat * value)) : machine :=
  mkMachine (vars m) c (in_buf m) (out_buf m) (details m) (attached m)
    (wrappers m) (next_obj m) (freed m).

Definition set_in (m : machine) (b : option buffer) : machine :=
  mkMachine (vars m) (mem m) b (out_buf m) (details m) (attached m)
    (wrappers m) (next_obj m) (freed m).

Definition set_out (m : machine) (b : option buffer) : machine :=
  mkMachine (vars m) (mem m) (in_buf m) b (details m) (attached m)
    (wrappers m) (next_obj m) (freed m).

Definition set_details (m : machine) (d : option (option string)) : machine :=
  mkMachine (vars m) (mem m) (in_buf m) (out_buf m) d (attached m)
    (wrappers m) (next_obj m) (freed m).

Definition log_free (m : machine) (b : string) (content : buffer) : machine :=
  mkMachine (vars m) (mem m) (in_buf m) (out_buf m) (details m) (attached m)
    (wrappers m) (next_obj m) (freed m ++ [(b, content)])%list.

(** [[cls alloc] initWithRef:r]: a new object whose [_ref] is the reference,
    as the [initWithRef:] that [genStructM] prints for every class sets it.
    Nothing is attached to the reference. *)
Definition alloc_wrapper (m : machine) (h : Z) : nat * machine :=
  (next_obj m,
   mkMachine (vars m) (mem m) (in_buf m) (out_buf m) (details m) (attached m)
     ((next_obj m, h) :: wrappers m) (S (next_obj m)) (freed m)).

Definition is_null (v : value) : bool :=
  match v with
  | VNull => true
  | _ => false
  end.

(** [[m length]]; a message to nil answers 0. *)
Definition msg_length (v : value) : res nat :=
  match v with
  | VStr s => Ok (String.length s)
  | VNull => Ok 0
  | _ => Fault BadValue
  end.

(** The value of [*x]. *)
Definition load (x : string) (m : machine) : res value :=
  match lookup x m with
  | Ok (VPtr l) =>
      match assocN l (mem m) with
      | Some v => Ok v
      | None => Ok VNull
      end
  | Ok VNull => Fault (NullStore x)
  | Ok _ => Fault BadValue
  | Fault f => Fault f
  end.

Definition eval_lval (l : lval) (m : machine) : res value :=
  match l with
  | LVar x => lookup x m
  | LDeref x => load x m
  end.

Definition eval_expr (e : expr) (m : machine) : res (value * machine) :=
  match e with
  | EVar x =>
      match lookup x m with
      | Ok v => Ok (v, m)
      | Fault f => Fault f
      end
  | ERefOf x =>
      match lookup x m with
      | Ok (VObj o) =>
          match assocN o (wrappers m) with
          | Some h => Ok (VRef h, m)
          | None => Ok (VNull, m)
          end
      | Ok VNull => Ok (VNull, m)
      | Ok _ => Fault BadValue
      | Fault f => Fault f
      end
  | EObjOf r =>
      match lookup r m with
      | Ok (VRef h) =>
          match assocZ h (attached m) with
          | Some o => Ok (VObj o, m)
          | None => Ok (VNull, m)
          end
      | Ok VNull => Ok (VNull, m)
      | Ok _ => Fault BadValue
      | Fault f => Fault f
      end
  | ERead st =>
      match out_buf m with
      | Some ((tag, v) :: rest) =>
          if tag =? st then Ok (v, set_out m (Some rest)) else Fault BufferFault
      | _ => Fault BufferFault
      end
  | EAllocInit _ r =>
      match lookup r m with
      | Ok (VRef h) => let (o, m') := alloc_wrapper m h in Ok (VObj o, m')
      | Ok _ => Fault BadValue
      | Fault f => Fault f
      end
  | ENSError =>
      match details m with
      | Some (Some s) => Ok (VErr s, m)
      | Some None => Ok (VErr "", m)
      | None => Fault (Unbound "details")
      end
  | ELenIsZero x =>
      match lookup x m with
      | Ok v =>
          match msg_length v with
          | Ok n => Ok (VBool (Nat.eqb n 0), m)
          | Fault f => Fault f
          end
      | Fault f => Fault f
      end
  end.

Definition eval_cond (c : cond) (m : machine) : res bool :=
  match c with
  | CIsNull l =>
      match eval_lval l m with
      | Ok v => Ok (is_null v)
      | Fault f => Fault f
      end
  | CNotNull x =>
      match lookup x m with
      | Ok v => Ok (negb (is_null v))
      | Fault f => Fault f
      end
  | CMsgAndOut s x =>
      match lookup s m with
      | Ok v =>
          match msg_length v with
          | Ok 0 => Ok false
          | Ok (S _) =>
              match lookup x m with
              | Ok p => Ok (negb (is_null p))
              | Fault f => Fault f
              end
          | Fault f => Fault f
          end
      | Fault f => Fault f
      end
  end.

(** How the execution of statements ends. *)
Inductive step : Set :=
| Next (m : machine)
| Ret (v : value) (m : machine)
| Stuck (f : fault).

Section Exec.

(** [go_seq_send]: the response to a request sent under the two macros. *)
Variable send : string -> string -> buffer -> buffer.

Fixpoint exec (s : stmt) (m : machine) : step :=
  match s with
  | SBuf b =>
      if b =? "in_" then Next (set_in m (Some []))
      else if b =? "out_" then Next (set_out m (Some []))
      else Stuck BadValue
  | SWrite st e =>
      match eval_expr e m with
      | Ok (v, m') =>
          match in_buf m' with
          | Some b => Next (set_in m' (Some (b ++ [(st, v)])%list))
          | None => Stuck BufferFault
          end
      | Fault f => Stuck f
      end
  | SSend d c =>
      match in_buf m, out_buf m with
      | Some ib, Some _ => Next (set_out m (Some (send d c ib)))
      | _, _ => Stuck BufferFault
      end
  | SDecl _ x e =>
      match eval_expr e m with
      | Ok (v, m') => Next (set_vars m' ((x, v) :: vars m'))
      | Fault f => Stuck f
      end
  | SAssign (LVar x) e =>
      match lookup x m with
      | Ok _ =>
          match eval_expr e m with
          | Ok (v, m') => Next (set_vars m' ((x, v) :: vars m'))
          | Fault f => Stuck f
          end
      | Fault f => Stuck f
      end
  | SAssign (LDeref x) e =>
      match lookup x m with
      | Ok (VPtr l) =>
          match eval_expr e m with
          | Ok (v, m') => Next (set_mem m' ((l, v) :: mem m'))
          | Fault f => Stuck f
          end
      | Ok VNull => Stuck (NullStore x)
      | Ok _ => Stuck BadValue
      | Fault f => Stuck f
      end
  | SNewDetails => Next (set_details m (Some None))
  | SSetDetail x =>
      match lookup x m, details m with
      | Ok (VStr s), Some _ => Next (set_details m (Some (Some s)))
      | Ok _, Some _ => Stuck BadValue
      | Ok _, None => Stuck (Unbound "details")
      | Fault f, _ => Stuck f
      end
  | SIf c body =>
      match eval_cond c m with
      | Ok true =>
          (fix exec_body (l : list stmt) (m : machine) : step :=
             match l with
             | [] => Next m
             | s' :: r =>
                 match exec s' m with
                 | Next m' => exec_body r m'
                 | other => other
                 end
             end) body m
      | Ok false => Next m
      | Fault f => Stuck f
      end
  | SFree b =>
      if b =? "in_" then
        match in_buf m with
        | Some c => Next (log_free (set_in m None) b c)
        | None => Stuck BufferFault
        end
      else if b =? "out_" then
        match out_buf m with
        | Some c => Next (log_free (set_out m None) b c)
        | None => Stuck BufferFault
        end
      else Stuck BadValue
  | SReturn e =>
      match eval_expr e m with
      | Ok (v, m') => Ret v m'
      | Fault f => Stuck f
      end
  end.

Fixpoint exec_list (l : list stmt) (m : machine) : step :=
  match l with
  | [] => Next m
  | s :: r =>
      match exec s m with
      | Next m' => exec_list r m'
      | other => other
      end
  end.

End Exec.

(** The machine at the entry of a stub: the arguments and out-parameter
    pointers bound to their names, no buffer yet. *)
Definition entry (args : list (string * value)) (cells : list (nat * value))
    (att : list (Z * nat)) (ws : list (nat * Z)) (next : nat) : machine :=
  mkMachine args cells None None None att ws next [].

(** ** The generated Go dispatcher, go_testpkg.go *)

(** A Go [error]: nil, or a value with the text of its [Error()]. *)
Definition error : Set := option string.

(** The functions of package testpkg that the two modelled handlers call;
    the package itself is not among the sources. *)
Record testpkg_impl : Set := mkImpl {
  testpkg_ReturnsError : bool -> string * error;
  testpkg_Sum : Z -> Z -> Z
}.

(** Modelled from the spec: the writers of [seq.Buffer], whose code is not
    among the sources.  A write appends one item; an item carries the name of
    the Objective-C reader of its encoding, and a Go string travels as UTF-8,
    which is what [go_seq_readUTF8] reads. *)
Definition WriteString (out : buffer) (s : string) : buffer :=
  (out ++ [("UTF8", VStr s)])%list.

Definition WriteInt64 (out : buffer) (z : Z) : buffer :=
  (out ++ [("Int64", VInt z)])%list.

(** [proxy_ReturnsError]: the buffers [out] and [in] after the call; a
    failed read panics. *)
Definition proxy_ReturnsError (impl : testpkg_impl) (out inb : buffer)
  : option (buffer * buffer) :=
  match inb with
  | ("Bool", VBool param_b) :: rest =>
      let (res, err) := testpkg_ReturnsError impl param_b in
      let out := WriteString out res in
      let out :=
        match err with
        | None => WriteString out ""
        | Some e => WriteString out e
        end in
      Some (out, rest)
  | _ => None
  end.

(** [proxy_Sum]. *)
Definition proxy_Sum (impl : testpkg_impl) (out inb : buffer)
  : option (buffer * buffer) :=
  match inb with
  | ("Int64", VInt param_x) :: ("Int64", VInt param_y) :: rest =>
      Some (WriteInt64 out (testpkg_Sum impl param_x param_y), rest)
  | _ => None
  end.

Definition proxyS_Descriptor : string := "go.testpkg.S".
Definition proxyS_X_Get_Code : Z := 0x00f.
Definition proxyS_X_Set_Code : Z := 0x01f.
Definition proxyS_Y_Get_Code : Z := 0x10f.
Definition proxyS_Y_Set_Code : Z := 0x11f.
Definition proxyS_Sum_Code : Z := 0x00c.
Definition proxyS_TryTwoStrings_Code : Z := 0x10c.

(** The handlers, by name. *)
Inductive handler : Set :=
| h_proxy_BytesAppend | h_proxy_CallSSum | h_proxy_CollectS | h_proxy_Hello
| h_proxy_Hi | h_proxy_Int | h_proxy_NewS | h_proxy_ReturnsError | h_proxy_Sum
| h_proxyS_X_Set | h_proxyS_X_Get | h_proxyS_Y_Set | h_proxyS_Y_Get
| h_proxyS_Sum | h_proxyS_TryTwoStrings.

(** The calls of [seq.Register] made by the two [init] functions, in order. *)
Definition registrations : list (string * Z * handler) :=
  [ (proxyS_Descriptor, proxyS_X_Set_Code, h_proxyS_X_Set);
    (proxyS_Descriptor, proxyS_X_Get_Code, h_proxyS_X_Get);
    (proxyS_Descriptor, proxyS_Y_Set_Code, h_proxyS_Y_Set);
    (proxyS_Descriptor, proxyS_Y_Get_Code, h_proxyS_Y_Get);
    (proxyS_Descriptor, proxyS_Sum_Code, h_proxyS_Sum);
    (proxyS_Descriptor, proxyS_TryTwoStrings_Code, h_proxyS_TryTwoStrings);
    ("testpkg", 1, h_proxy_BytesAppend);
    ("testpkg", 2, h_proxy_CallSSum);
    ("testpkg", 3, h_proxy_CollectS);
    ("testpkg", 4, h_proxy_Hello);
    ("testpkg", 5, h_proxy_Hi);
    ("testpkg", 6, h_proxy_Int);
    ("testpkg", 7, h_proxy_NewS);
    ("testpkg", 8, h_proxy_ReturnsError);
    ("testpkg", 9, h_proxy_Sum) ]%Z.

(** The handler registered under a call site. *)
Definition registered (descriptor : string) (code : Z) : option handler :=
  match find (fun r => (fst (fst r) =? descriptor) && (snd (fst r) =? code)%Z)
             registrations with
  | Some r => Some (snd r)
  | None => None
  end.

(** ** The package testpkg, as go_testpkg.go shows it *)

Definition testpkg_path : string := "golang.org/x/mobile/bind/objc/testpkg".

Definition t_float64 : Type_ := types.Basic types.Float64.
Definition t_string : Type_ := types.Basic types.String.
Definition t_int : Type_ := types.Basic types.Int.
Definition t_bytes : Type_ := types.Slice (types.Basic types.Uint8).
Definition t_S : Type_ := types.Named testpkg_path "testpkg" "S" types.Struct.

Definition testpkg_S : TypeName :=
  {| tn_name := "S";
     tn_underlying := types.Struct;
     tn_fields := [mkVar "X" t_float64; mkVar "Y" t_float64];
     tn_methods :=
       [mkFunc "Sum" [] [mkVar "" t_float64];
        mkFunc "TryTwoStrings" [mkVar "first" t_string; mkVar "second" t_string]
          [mkVar "" t_string]] |}.

Definition testpkg_ReturnsError_func : Func :=
  mkFunc "ReturnsError" [mkVar "b" (types.Basic types.Bool)]
    [mkVar "" t_string; mkVar "" types.Error].

Definition testpkg_NewS_func : Func :=
  mkFunc "NewS" [mkVar "x" t_float64; mkVar "y" t_float64]
    [mkVar "" (types.Pointer t_S)].

Definition testpkg_Sum_func : Func :=
  mkFunc "Sum" [mkVar "x" (types.Basic types.Int64); mkVar "y" (types.Basic types.Int64)]
    [mkVar "" (types.Basic types.Int64)].

Definition testpkg : Package :=
  {| Path := testpkg_path;
     Name := "testpkg";
     Scope :=
       [ OFunc (mkFunc "BytesAppend" [mkVar "a" t_bytes; mkVar "b" t_bytes] [mkVar "" t_bytes]);
         OFunc (mkFunc "CallSSum" [mkVar "s" (types.Pointer t_S)] [mkVar "" t_float64]);
         OFunc (mkFunc "CollectS" [mkVar "want" t_int; mkVar "timeoutSec" t_int] [mkVar "" t_int]);
         OFunc (mkFunc "Hello" [mkVar "s" t_string] [mkVar "" t_string]);
         OFunc (mkFunc "Hi" [] []);
         OFunc (mkFunc "Int" [mkVar "x" (types.Basic types.Int32)] []);
         OFunc testpkg_NewS_func;
         OFunc testpkg_ReturnsError_func;
         OTypeName testpkg_S;
         OFunc testpkg_Sum_func ] |}.

(** A generator for a package, before [init]. *)
Definition newGen (p : Package) : objcGen :=
  {| pkg := p; err := []; pkgName := ""; namePrefix := ""; funcs := []; names := [] |}.

(** An instance of the three helpers, for the concrete runs below: the seq
    names are those of the readers and writers that go_testpkg.go calls, a
    parameter without a name is called [p<i>], and [paramRE] matches such
    names. *)
Definition seqType_go (t : Type_) : string :=
  match t with
  | types.Error => "UTF8"
  | types.Basic types.Bool => "Bool"
  | types.Basic types.Int => "Int"
  | types.Basic types.Int32 => "Int32"
  | types.Basic types.Int64 => "Int64"
  | types.Basic types.Float64 => "Float64"
  | types.Basic types.String => "String"
  | types.Slice (types.Basic types.Uint8) => "ByteArray"
  | types.Pointer (types.Named _ _ _ _) => "Ref"
  | types.Named _ _ _ types.Interface => "Ref"
  | _ => "Unsupported"
  end.

Definition paramName_go (params : list Var) (i : nat) : string :=
  match nth_error params i with
  | Some v => if v_name v =? "" then "p" ++ fmt_d (Z.of_nat i) else v_name v
  | None => ""
  end.

Definition paramRE_go (s : string) : bool :=
  match s with
  | String "p"%char r =>
      match read_digits 10 r 0 with
      | Some _ => true
      | None => false
      end
  | _ => false
  end.

Definition go_helpers : helpers := mkHelpers seqType_go paramName_go paramRE_go.

Definition lines (out : list item) : list (nat * string) := flat_map render_item out.



(** ** Notions used in the statements *)

(** A computation that completes and prints nothing. *)
Definition quiet {A : Type} (m : outcome A) : Prop :=
  exists a e, m = Done a e [].

Definition is_define (i : item) : bool :=
  match i with
  | IDefine _ _ => true
  | _ => false
  end.

(** The call-site table of a printed file: its macro definitions. *)
Definition call_sites (out : list item) : list (string * string) :=
  flat_map (fun i => match i with IDefine m v => [(m, v)] | _ => [] end) out.

(** The text a macro stands for. *)
Definition macro_value (out : list item) (m : string) : option string :=
  assoc m (call_sites out).

(** The macro definitions that [genStructM] prints for a struct. *)
Definition struct_defines (g : objcGen) (obj : TypeName) : list item :=
  let desc := struct_desc g obj in
  (IDefine (desc ++ "_DESCRIPTOR_") (dq ++ "go." ++ pkgName g ++ "." ++ tn_name obj ++ dq)
   :: flat_map
        (fun i_f =>
           [IDefine (desc ++ "_FIELD_" ++ v_name (snd i_f) ++ "_GET_")
              (field_get_literal (fst i_f));
            IDefine (desc ++ "_FIELD_" ++ v_name (snd i_f) ++ "_SET_")
              (field_set_literal (fst i_f))])
        (indexed (tn_fields obj))
   ++ map (fun i_m =>
             IDefine (desc ++ "_" ++ f_name (snd i_m) ++ "_") (method_literal (fst i_m)))
        (indexed (tn_methods obj)))%list.

(** The macro definitions that [genM] prints before the structs. *)
Definition func_defines (g : objcGen) : list item :=
  IDefine "_DESCRIPTOR_" (fmt_q (pkgName g))
  :: map (fun i_obj =>
            IDefine ("_CALL_" ++ f_name (snd i_obj) ++ "_")
              (fmt_d (Z.of_nat (fst i_obj) + 1)))
       (indexed (funcs g)).

Definition is_struct (t : Type_) : bool :=
  match t with
  | types.Struct => true
  | _ => false
  end.

(** The order and kind of the exported declarations of a package, without
    any type: its name, the names of its exported functions, and for each
    exported type its name, whether it is a struct, and the names of its
    exported fields and methods. *)
Record type_shape : Set := mkShape {
  sh_name : string;
  sh_struct : bool;
  sh_fields : list string;
  sh_methods : list string
}.

Definition shape_of (t : TypeName) : type_shape :=
  {| sh_name := tn_name t;
     sh_struct := is_struct (tn_underlying t);
     sh_fields := map v_name (tn_fields t);
     sh_methods := map f_name (tn_methods t) |}.

Definition skeleton (p : Package) : string * list string * list type_shape :=
  let g := init (newGen p) in
  (Name p, map f_name (funcs g), map shape_of (names g)).

Definition returns (r : run) : bool :=
  match r with
  | Returned _ _ _ => true
  | Crashed _ _ => false
  end.

Definition returned_error (r : run) : option ErrorList :=
  match r with
  | Returned _ _ e => e
  | Crashed _ _ => None
  end.

(** The exported functions and types of a scope, in its order. *)
Definition exported_funcs (objs : list Object) : list Func :=
  flat_map (fun o => match o with
                     | OFunc f => if Exported (f_name f) then [f] else []
                     | _ => []
                     end) objs.

Definition exported_types (objs : list Object) : list TypeName :=
  flat_map (fun o => match o with
                     | OTypeName t => if Exported (tn_name t) then [t] else []
                     | _ => []
                     end) objs.

(** The call-site table that a skeleton determines. *)
Definition shape_sites (pn : string) (sh : type_shape) : list (string * string) :=
  if sh_struct sh then
    let desc := "_GO_" ++ pn ++ "_" ++ sh_name sh in
    (desc ++ "_DESCRIPTOR_", dq ++ "go." ++ pn ++ "." ++ sh_name sh ++ dq)
    :: List.app
         (flat_map
            (fun i_n =>
               [(desc ++ "_FIELD_" ++ snd i_n ++ "_GET_", field_get_literal (fst i_n));
                (desc ++ "_FIELD_" ++ snd i_n ++ "_SET_", field_set_literal (fst i_n))])
            (indexed (sh_fields sh)))
         (map (fun i_n => (desc ++ "_" ++ snd i_n ++ "_", method_literal (fst i_n)))
            (indexed (sh_methods sh)))
  else [].

Definition skeleton_sites (sk : string * list string * list type_shape)
  : list (string * string) :=
  let pn := fst (fst sk) in
  ("_DESCRIPTOR_", fmt_q pn)
  :: List.app
       (map (fun i_n => ("_CALL_" ++ snd i_n ++ "_", fmt_d (Z.of_nat (fst i_n) + 1)))
          (indexed (snd (fst sk))))
       (flat_map (shape_sites pn) (snd sk)).

(** The loops of [genM] over the types and over the functions, that is
    [genM_body] after the function macros. *)
Definition genM_rest (hp : helpers) (g : objcGen) : outcome unit :=
  forM_ (names g)
    (fun obj =>
       match tn_underlying obj with
       | types.Struct => genStructM hp g obj
       | types.Interface => genInterfaceM g obj
       | _ => pure tt
       end ;;;
       Printf (IText "")) ;;;
  forM_ (funcs g) (fun obj => genFuncM hp g obj ;;; Printf (IText "")).

(** The signatures that [funcSummary] accepts. *)
Definition sig_ok (f : Func) : bool :=
  match f_results f with
  | [] => true
  | [_] => true
  | [_; r1] => isErrorType (v_type r1)
  | _ => false
  end.

(** Every exported method of every exported struct has an accepted
    signature. *)
Definition methods_ok (g : objcGen) : bool :=
  forallb (fun t => negb (is_struct (tn_underlying t)) || forallb sig_ok (tn_methods t))
          (names g).

(** The shapes of type that the type mapper does not support. *)
Inductive unsupported (g : objcGen) : Type_ -> Prop :=
| U_slice e : e <> types.Basic types.Uint8 -> unsupported g (types.Slice e)
| U_map k e : unsupported g (types.Map k e)
| U_pointer e :
    (forall a b c d, e <> types.Named a b c d) -> e <> types.Error ->
    unsupported g (types.Pointer e)
| U_foreign path pname n u :
    path <> Path (pkg g) -> unsupported g (types.Named path pname n u)
| U_named path pname n u :
    u <> types.Struct -> u <> types.Interface ->
    unsupported g (types.Named path pname n u)
| U_array len e : unsupported g (types.Array len e)
| U_chan e : unsupported g (types.Chan e)
| U_signature : unsupported g types.Signature
| U_struct : unsupported g types.Struct
| U_interface : unsupported g types.Interface
| U_basic k :
    In k [types.Invalid; types.Uint; types.Uintptr; types.Complex64;
          types.Complex128; types.UnsafePointer] ->
    unsupported g (types.Basic k).

(** ** Calling a stub *)

(** The argument that the stub writes for a parameter. *)
Definition arg_expr (hp : helpers) (p : paramInfo) : expr :=
  if objcGen_seqType hp (typ p) =? "Ref" then ERefOf (name p) else EVar (name p).

Definition arg_value (e : expr) (m : machine) : option value :=
  match eval_expr e m with
  | Ok (v, _) => Some v
  | Fault _ => None
  end.

Definition has_value (o : option value) : bool :=
  match o with
  | Some _ => true
  | None => false
  end.

Definition value_or_null (o : option value) : value :=
  match o with
  | Some v => v
  | None => VNull
  end.

(** The machine holds the receiver (for a method) and every argument of the
    stub. *)
Definition callable (hp : helpers) (s : funcSummary) (isMethod : bool) (m : machine) : bool :=
  (if isMethod then has_value (arg_value (ERefOf "self") m) else true)
  && forallb (fun p => has_value (arg_value (arg_expr hp p) m)) (s_params s).

(** The request that the stub writes into [in_]. *)
Definition request (hp : helpers) (s : funcSummary) (isMethod : bool) (m : machine) : buffer :=
  ((if isMethod then [("Ref", value_or_null (arg_value (ERefOf "self") m))] else [])
     ++ map (fun p => (objcGen_seqType hp (typ p),
                       value_or_null (arg_value (arg_expr hp p) m)))
          (s_params s))%list.

(** The reader that decodes a result. *)
Definition result_tag (hp : helpers) (p : paramInfo) : string :=
  if isErrorType (typ p) then "UTF8" else objcGen_seqType hp (typ p).

(** A response item is what the dispatcher writes for the result: an error
    travels as a string and an object as a reference. *)
Definition fits (hp : helpers) (p : paramInfo) (it : string * value) : bool :=
  (fst it =? result_tag hp p)
  && (if isErrorType (typ p) then
        match snd it with
        | VStr _ => true
        | _ => false
        end
      else if objcGen_seqType hp (typ p) =? "Ref" then
        match snd it with
        | VRef _ => true
        | _ => false
        end
      else true).

Fixpoint response_ok (hp : helpers) (ps : list paramInfo) (resp : buffer) : bool :=
  match ps, resp with
  | [], [] => true
  | p :: ps', it :: resp' => fits hp p it && response_ok hp ps' resp'
  | _, _ => false
  end.

(** The local variable that holds a decoded out-result. *)
Definition local_name (hp : helpers) (p : paramInfo) : string :=
  if isErrorType (typ p) then "_" ++ name p
  else if objcGen_seqType hp (typ p) =? "Ref" then name p ++ "_ref"
  else name p ++ "_val".

(** An out-parameter pointer: NULL or the address of a cell. *)
Definition is_pointer (v : value) : bool :=
  match v with
  | VNull => true
  | VPtr _ => true
  | _ => false
  end.

(** The last item of a response, when it is a string. *)
Definition last_message (resp : buffer) : option string :=
  match last (map Some resp) None with
  | Some (_, VStr s) => Some s
  | _ => None
  end.

(** The statements that open every stub body. *)
Definition stub_head (hp : helpers) (pkgDesc callDesc : string) (s : funcSummary)
    (isMethod : bool) : list stmt :=
  ([SBuf "in_"; SBuf "out_"]
     ++ (if isMethod then [SWrite "Ref" (ERefOf "self")] else [])
     ++ map (write_param hp) (s_params s)
     ++ [SSend pkgDesc callDesc])%list.

(** The machine after the head of a stub has run. *)
Definition after_send (hp : helpers) (send : string -> string -> buffer -> buffer)
    (d c : string) (s : funcSummary) (isMethod : bool) (m : machine) : machine :=
  set_out (set_in m (Some (request hp s isMethod m)))
          (Some (send d c (request hp s isMethod m))).

(** Every store through a pointer, and every read through one, is inside an
    [if] that has tested that pointer against NULL.  [checked] lists the
    pointers tested by the enclosing conditions. *)
Definition tested (checked : list string) (x : string) : bool :=
  existsb (String.eqb x) checked.

Fixpoint guarded (checked : list string) (s : stmt) : bool :=
  match s with
  | SAssign (LDeref x) _ => tested checked x
  | SIf c body =>
      let inner :=
        match c with
        | CNotNull x => x :: checked
        | CMsgAndOut _ x => x :: checked
        | CIsNull _ => checked
        end in
      match c with
      | CIsNull (LDeref x) => tested checked x
      | _ => true
      end
      && (fix all (l : list stmt) : bool :=
            match l with
            | [] => true
            | s' :: r => guarded inner s' && all r
            end) body
  | _ => true
  end.

(** The body of the stub that [genFuncM] prints for a function. *)
Definition stub_body (hp : helpers) (g : objcGen) (f : Func) : list stmt :=
  match out_of (genFuncM hp g f) with
  | [IFunc _ body] => body
  | _ => []
  end.

(** [go_seq_send] answered by the handler [proxy_ReturnsError]. *)
Definition send_ReturnsError (impl : testpkg_impl) (d c : string) (inb : buffer) : buffer :=
  match proxy_ReturnsError impl [] inb with
  | Some (out, _) => out
  | None => []
  end.

(** The text of a Go error on the wire. *)
Definition error_text (err : error) : string :=
  match err with
  | None => ""
  | Some t => t
  end.

(** ** Concrete inputs for the examples *)

(** A generator that has run before: it holds earlier diagnostics and the
    functions and names of another run. *)
Definition stale_gen : objcGen :=
  {| pkg := testpkg;
     err := [ErrTooManyResults "Old"];
     pkgName := "old"; namePrefix := "GoOld";
     funcs := [testpkg_Sum_func]; names := [] |}.

(** The same declarations with every parameter, result and field retyped
    to [int]. *)
Definition retype_var (v : Var) : Var := mkVar (v_name v) t_int.

Definition retype_func (f : Func) : Func :=
  mkFunc (f_name f) (map retype_var (f_params f)) (map retype_var (f_results f)).

Definition retype_object (o : Object) : Object :=
  match o with
  | OFunc f => OFunc (retype_func f)
  | OTypeName t =>
      OTypeName (mkTypeName (tn_name t) (tn_underlying t)
                   (map retype_var (tn_fields t)) (map retype_func (tn_methods t)))
  | other => other
  end.

Definition retype (p : Package) : Package :=
  mkPackage (Path p) (Name p) (map retype_object (Scope p)).

(** A package with a function whose parameter is a map. *)
Definition t_map : Type_ := types.Map t_string t_int.

Definition badpkg_Keys : Func := mkFunc "Keys" [mkVar "m" t_map] [mkVar "" t_int].
Definition badpkg_Zero : Func := mkFunc "Zero" [] [mkVar "" t_int].

Definition badpkg : Package :=
  {| Path := "example.org/badpkg"; Name := "badpkg";
     Scope := [OFunc badpkg_Keys; OFunc badpkg_Zero] |}.

(** Functions with three results, with two results of which the second is
    not an error, and with an error as sole result. *)
Definition func_three : Func :=
  mkFunc "Three" [] [mkVar "" t_int; mkVar "" t_int; mkVar "" types.Error].
Definition func_pair : Func := mkFunc "Pair" [] [mkVar "" t_string; mkVar "" t_string].
Definition func_check : Func := mkFunc "Check" [] [mkVar "" types.Error].

(** Modelled from the spec: the functions [ReturnsError] and [Sum] of
    testpkg, whose source is not among the files.  [ReturnsError] called
    with true returns a result string and no error, and called with false
    an error with a message; [Sum] adds. *)
Definition testpkg_model : testpkg_impl :=
  mkImpl (fun b => if b then ("OK", None) else ("", Some "Error")) Z.add.

(** An implementation whose error has an empty text, as [errors.New("")]. *)
Definition testpkg_empty_error : testpkg_impl :=
  mkImpl (fun _ => ("", Some "")) Z.add.

(** The summaries of [ReturnsError] and [NewS]. *)
Definition ReturnsError_summary : funcSummary :=
  {| s_name := "ReturnsError"; s_ret := "BOOL";
     s_params := [mkParam (types.Basic types.Bool) "b"];
     s_retParams := [mkParam t_string "ret0_"; mkParam types.Error "error"] |}.

Definition NewS_summary : funcSummary :=
  {| s_name := "NewS"; s_ret := "GoTestpkgS*";
     s_params := [mkParam t_float64 "x"; mkParam t_float64 "y"];
     s_retParams := [mkParam (types.Pointer t_S) "ret0_"] |}.

(** [go_seq_send] answered with one reference. *)
Definition send_ref (h : Z) (d c : string) (inb : buffer) : buffer := [("Ref", VRef h)].

(** Calls of [GoTestpkgReturnsError]: with NULL out-parameters, and with
    the addresses of two cells. *)
Definition call_null (b : bool) : machine :=
  entry [("b", VBool b); ("ret0_", VNull); ("error", VNull)] [] [] [] 0.

Definition call_cells (b : bool) : machine :=
  entry [("b", VBool b); ("ret0_", VPtr 0); ("error", VPtr 1)] [] [] [] 0.

(** A call of [GoTestpkgNewS], in a runtime that holds the given wrappers. *)
Definition call_NewS (att : list (Z * nat)) (ws : list (nat * Z)) (next : nat) : machine :=
  entry [("x", VInt 1); ("y", VInt 2)] [] att ws next.
(** * Properties *)

(** ** Strings *)

Lemma length_append (a b : string) :
  String.length (a ++ b) = String.length a + String.length b.
Proof. induction a as [|c a IH]; simpl; [reflexivity | now rewrite IH]. Qed.

Lemma append_assoc (a b c : string) : (a ++ b) ++ c = a ++ (b ++ c).
Proof. induction a as [|x a IH]; simpl; [reflexivity | now rewrite IH]. Qed.

Lemma but_last_snoc (a : string) (c : ascii) :
  but_last (a ++ String c "") = a.
Proof.
  induction a as [|x a IH]; simpl; [reflexivity|].
  rewrite IH. destruct a; reflexivity.
Qed.

Lemma get_last_snoc (a : string) (c : ascii) :
  String.get (String.length (a ++ String c "") - 1) (a ++ String c "") = Some c.
Proof.
  induction a as [|x a IH]; simpl; [reflexivity|].
  rewrite Nat.sub_0_r.
  destruct a as [|y a]; [reflexivity|].
  simpl in *. rewrite Nat.sub_0_r in IH. exact IH.
Qed.

Lemma strip_parens_wrapped (a : string) : strip_parens ("(" ++ a ++ ")") = a.
Proof.
  unfold strip_parens. simpl.
  rewrite get_last_snoc. apply but_last_snoc.
Qed.

Lemma c_string_literal_quoted (a : string) : c_string_literal (fmt_q a) = Some a.
Proof.
  unfold fmt_q, dq, c_string_literal. simpl.
  rewrite get_last_snoc. simpl. now rewrite but_last_snoc.
Qed.

(** ** Digits *)

Lemma digit_val_digit_char (d : Z) :
  (0 <= d < 16)%Z -> digit_val (digit_char d) = Some d.
Proof.
  intros H.
  assert (Hc : (d = 0 \/ d = 1 \/ d = 2 \/ d = 3 \/ d = 4 \/ d = 5 \/ d = 6 \/ d = 7 \/
                d = 8 \/ d = 9 \/ d = 10 \/ d = 11 \/ d = 12 \/ d = 13 \/ d = 14 \/
                d = 15)%Z) by lia.
  repeat (destruct Hc as [Hc | Hc]; [subst d; reflexivity|]).
  subst d; reflexivity.
Qed.

Lemma format_bits_acc (fuel : nat) (base u : Z) (acc : string) :
  format_bits fuel base u acc = format_bits fuel base u "" ++ acc.
Proof.
  revert u acc. induction fuel as [|k IH]; intros u acc; simpl; [reflexivity|].
  destruct (u <? base)%Z; [reflexivity|].
  rewrite IH. rewrite (IH _ (String _ "")). now rewrite append_assoc.
Qed.

Lemma read_digits_app (base : Z) (a b : string) (acc : Z) :
  read_digits base (a ++ b) acc =
  match read_digits base a acc with
  | Some k => read_digits base b k
  | None => None
  end.
Proof.
  revert acc. induction a as [|c a IH]; intros acc; simpl; [reflexivity|].
  destruct (digit_val c) as [d|]; [|reflexivity].
  destruct (d <? base)%Z; [apply IH | reflexivity].
Qed.

Lemma read_format_bits (base : Z) (fuel : nat) (u : Z) :
  (2 <= base <= 16)%Z -> (0 <= u)%Z -> (Z.to_nat u < fuel)%nat ->
  read_digits base (format_bits fuel base u "") 0 = Some u.
Proof.
  intros Hb. revert u. induction fuel as [|k IH]; intros u Hu Hf; [lia|].
  simpl. destruct (u <? base)%Z eqn:E.
  - apply Z.ltb_lt in E. simpl.
    rewrite digit_val_digit_char by lia.
    assert (Hd : (u <? base)%Z = true) by (apply Z.ltb_lt; lia).
    rewrite Hd. reflexivity.
  - apply Z.ltb_ge in E.
    rewrite format_bits_acc, read_digits_app.
    assert (Hq : (0 <= u / base < u)%Z).
    { split; [apply Z.div_pos; lia | apply Z.div_lt; lia]. }
    rewrite IH by lia. simpl.
    assert (Hm : (0 <= u mod base < base)%Z) by (apply Z.mod_pos_bound; lia).
    rewrite digit_val_digit_char by lia.
    assert (Hd : (u mod base <? base)%Z = true) by (apply Z.ltb_lt; lia).
    rewrite Hd. f_equal.
    rewrite (Z.div_mod u base) at 3 by lia. lia.
Qed.

Lemma format_bits_leading (base : Z) (fuel : nat) (u : Z) (acc : string) :
  (2 <= base <= 16)%Z -> (1 <= u)%Z -> (Z.to_nat u < fuel)%nat ->
  exists d rest, (1 <= d < base)%Z /\
                 format_bits fuel base u acc = String (digit_char d) rest.
Proof.
  intros Hb. revert u acc. induction fuel as [|k IH]; intros u acc Hu Hf; [lia|].
  simpl. destruct (u <? base)%Z eqn:E.
  - apply Z.ltb_lt in E. exists u, acc. split; [lia | reflexivity].
  - apply Z.ltb_ge in E.
    assert (Hq : (1 <= u / base < u)%Z).
    { split; [|apply Z.div_lt; lia].
      apply Z.div_le_lower_bound; lia. }
    apply IH; lia.
Qed.

(** Reading back [%d] of a positive number. *)
Lemma c_int_literal_fmt_d (n : Z) :
  (1 <= n)%Z -> c_int_literal (fmt_d n) = Some n.
Proof.
  intros Hn.
  pose proof (read_format_bits 10 (S (Z.to_nat n)) n ltac:(lia) ltac:(lia) ltac:(lia)) as Hr.
  destruct (format_bits_leading 10 (S (Z.to_nat n)) n "" ltac:(lia) Hn ltac:(lia))
    as (d & rest & Hd & Hs).
  unfold fmt_d. rewrite Hs in *.
  assert (Hc : (d = 1 \/ d = 2 \/ d = 3 \/ d = 4 \/ d = 5 \/ d = 6 \/ d = 7 \/
                d = 8 \/ d = 9)%Z) by lia.
  repeat (destruct Hc as [Hc | Hc]; [subst d; exact Hr|]).
  subst d; exact Hr.
Qed.

(** Reading back a code literal [(0x<i><lo>)] with a two-digit suffix. *)
Lemma c_int_literal_hex (i : Z) (hi lo : Z) :
  (0 <= i)%Z -> (0 <= hi < 16)%Z -> (0 <= lo < 16)%Z ->
  c_int_literal ("(0x" ++ fmt_x i
                   ++ String (digit_char hi) (String (digit_char lo) "") ++ ")")
  = Some (i * 256 + hi * 16 + lo)%Z.
Proof.
  intros Hi Hh Hl.
  unfold c_int_literal.
  set (sfx := String (digit_char hi) (String (digit_char lo) "")).
  replace ("(0x" ++ fmt_x i ++ sfx ++ ")")
    with ("(" ++ ("0x" ++ fmt_x i ++ sfx) ++ ")")
    by (simpl; now rewrite append_assoc).
  rewrite strip_parens_wrapped. subst sfx.
  assert (Hr : read_digits 16
                 (fmt_x i ++ String (digit_char hi) (String (digit_char lo) "")) 0
               = Some (i * 256 + hi * 16 + lo)%Z).
  { rewrite read_digits_app. unfold fmt_x.
    rewrite read_format_bits by lia. simpl.
    rewrite !digit_val_digit_char by lia.
    assert (H1 : (hi <? 16)%Z = true) by (apply Z.ltb_lt; lia).
    assert (H2 : (lo <? 16)%Z = true) by (apply Z.ltb_lt; lia).
    rewrite H1, H2. f_equal. lia. }
  simpl.
  destruct (fmt_x i ++ String (digit_char hi) (String (digit_char lo) "")) eqn:E.
  - apply (f_equal String.length) in E. rewrite length_append in E. simpl in E. lia.
  - exact Hr.
Qed.

Lemma shift_or_low (i lo : Z) :
  (0 <= i)%Z -> (0 <= lo < 256)%Z ->
  Z.lor (Z.shiftl i 8) lo = (i * 256 + lo)%Z.
Proof.
  intros Hi Hl.
  rewrite Z.shiftl_mul_pow2 by lia. change (2 ^ 8)%Z with 256%Z.
  assert (Hland : Z.land (i * 256) lo = 0%Z).
  { apply Z.bits_inj'. intros n Hn. rewrite Z.land_spec, Z.bits_0.
    destruct (Z.ltb n 8) eqn:E.
    - apply Z.ltb_lt in E. change 256%Z with (2 ^ 8)%Z.
      rewrite Z.mul_pow2_bits_low by lia. reflexivity.
    - apply Z.ltb_ge in E.
      assert (Z.testbit lo n = false).
      { destruct (Z.eq_dec lo 0) as [->|Hz]; [apply Z.bits_0|].
        apply Z.bits_above_log2; [lia|].
        assert (Z.log2 lo < 8)%Z by (apply Z.log2_lt_pow2; lia). lia. }
      rewrite H. apply andb_false_r. }
  rewrite <- Z.lxor_lor by exact Hland.
  symmetry. apply Z.add_nocarry_lxor. exact Hland.
Qed.

(** ** The effects of the generator *)

Lemma out_of_bind {A B : Type} (m : outcome A) (f : A -> outcome B) :
  out_of (bind m f) =
  (out_of m ++ match m with
               | Done a _ _ => out_of (f a)
               | Panicked _ _ => []
               end)%list.
Proof.
  destruct m as [a e o | e o]; simpl.
  - destruct (f a); reflexivity.
  - now rewrite app_nil_r.
Qed.

Lemma err_of_bind {A B : Type} (m : outcome A) (f : A -> outcome B) :
  err_of (bind m f) =
  (err_of m ++ match m with
               | Done a _ _ => err_of (f a)
               | Panicked _ _ => []
               end)%list.
Proof.
  destruct m as [a e o | e o]; simpl.
  - destruct (f a); reflexivity.
  - now rewrite app_nil_r.
Qed.

Lemma completes_bind {A B : Type} (m : outcome A) (f : A -> outcome B) :
  completes (bind m f) =
  match m with
  | Done a _ _ => completes (f a)
  | Panicked _ _ => false
  end.
Proof.
  destruct m as [a e o | e o]; simpl; [|reflexivity].
  destruct (f a); reflexivity.
Qed.

Lemma out_of_after {A B : Type} (m : outcome A) (k : outcome B) a o :
  m = Done a [] o -> out_of (m ;;; k) = (o ++ out_of k)%list.
Proof. intros ->. simpl. destruct k; reflexivity. Qed.

Lemma quiet_pure {A : Type} (a : A) : quiet (pure a).
Proof. now exists a, []. Qed.

Lemma quiet_logged {A : Type} (p : A * ErrorList) : quiet (logged p).
Proof. now exists (fst p), (snd p). Qed.

Lemma quiet_errorf (d : diag) : quiet (errorf d).
Proof. now exists tt, [d]. Qed.

Lemma quiet_bind {A B : Type} (m : outcome A) (f : A -> outcome B) :
  quiet m -> (forall a, quiet (f a)) -> quiet (bind m f).
Proof.
  intros (a & e & ->) Hf. destruct (Hf a) as (b & e' & Hb).
  simpl. rewrite Hb. now exists b, (e ++ e')%list.
Qed.

Lemma quiet_forM {A B : Type} (l : list A) (f : A -> outcome B) :
  (forall x, quiet (f x)) -> quiet (forM l f).
Proof.
  intros Hf. induction l as [|x l IH]; simpl.
  - apply quiet_pure.
  - apply quiet_bind; [apply Hf|]. intros y.
    apply quiet_bind; [exact IH|]. intros ys. apply quiet_pure.
Qed.

Lemma quiet_foldM {A S : Type} (f : S -> A -> outcome S) (l : list A) (s : S) :
  (forall s x, quiet (f s x)) -> quiet (foldM f l s).
Proof.
  intros Hf. revert s. induction l as [|x l IH]; intros s; simpl.
  - apply quiet_pure.
  - apply quiet_bind; [apply Hf | intros s'; apply IH].
Qed.

Lemma quiet_out {A : Type} (m : outcome A) : quiet m -> out_of m = [].
Proof. now intros (a & e & ->). Qed.

Lemma quiet_completes {A : Type} (m : outcome A) : quiet m -> completes m = true.
Proof. now intros (a & e & ->). Qed.

Ltac quiet_tac :=
  repeat first
    [ apply quiet_pure | apply quiet_logged | apply quiet_errorf
    | apply quiet_forM; intros
    | apply quiet_foldM; intros
    | apply quiet_bind; [|intros]
    | match goal with
      | |- quiet (if ?c then _ else _) => destruct c
      | |- quiet (match ?x with _ => _ end) => destruct x
      end ].

Lemma quiet_asFunc (s : funcSummary) (g : objcGen) : quiet (asFunc s g).
Proof. unfold asFunc. quiet_tac. Qed.

Lemma quiet_asMethod (s : funcSummary) (g : objcGen) : quiet (asMethod s g).
Proof. unfold asMethod. quiet_tac. Qed.

Lemma forM__Printf {A : Type} (l : list A) (h : A -> item) :
  forM_ l (fun x => Printf (h x)) = Done tt [] (map h l).
Proof.
  induction l as [|x l IH]; simpl; [reflexivity|].
  now rewrite IH.
Qed.

Lemma forM__Printf2 {A : Type} (l : list A) (h1 h2 : A -> item) :
  forM_ l (fun x => Printf (h1 x) ;;; Printf (h2 x))
  = Done tt [] (flat_map (fun x => [h1 x; h2 x]) l).
Proof.
  induction l as [|x l IH]; [reflexivity|].
  cbn [forM_]. rewrite IH. reflexivity.
Qed.

Lemma Forall_out_bind {A B : Type} (P : item -> Prop) (m : outcome A) (f : A -> outcome B) :
  Forall P (out_of m) -> (forall a, Forall P (out_of (f a))) ->
  Forall P (out_of (bind m f)).
Proof.
  intros Hm Hf. rewrite out_of_bind. apply Forall_app. split; [exact Hm|].
  destruct m; [apply Hf | constructor].
Qed.

Lemma Forall_out_bind' {A B : Type} (P : item -> Prop) (m : outcome A) (f : A -> outcome B) :
  Forall P (out_of m) -> (forall a e o, m = Done a e o -> Forall P (out_of (f a))) ->
  Forall P (out_of (bind m f)).
Proof.
  intros Hm Hf. rewrite out_of_bind. apply Forall_app. split; [exact Hm|].
  destruct m; [eapply Hf; reflexivity | constructor].
Qed.

Lemma Forall_out_forM_ {A : Type} (P : item -> Prop) (l : list A) (f : A -> outcome unit) :
  (forall x, In x l -> Forall P (out_of (f x))) -> Forall P (out_of (forM_ l f)).
Proof.
  induction l as [|x l IH]; intros Hf; simpl; [constructor|].
  apply Forall_out_bind; [apply Hf; now left|].
  intros _. apply IH. intros y Hy. apply Hf. now right.
Qed.

Lemma Forall_out_quiet {A : Type} (P : item -> Prop) (m : outcome A) :
  quiet m -> Forall P (out_of m).
Proof. intros H. rewrite (quiet_out _ H). constructor. Qed.

Lemma filter_none {A : Type} (p : A -> bool) (l : list A) :
  Forall (fun x => p x = false) l -> filter p l = [].
Proof.
  induction 1 as [|x l Hx _ IH]; simpl; [reflexivity|].
  now rewrite Hx.
Qed.

Lemma filter_all {A : Type} (p : A -> bool) (l : list A) :
  Forall (fun x => p x = true) l -> filter p l = l.
Proof.
  induction 1 as [|x l Hx _ IH]; simpl; [reflexivity|].
  now rewrite Hx, IH.
Qed.

Lemma out_forM__complete {A : Type} (l : list A) (f : A -> outcome unit) :
  completes (forM_ l f) = true ->
  out_of (forM_ l f) = flat_map (fun x => out_of (f x)) l /\
  Forall (fun x => completes (f x) = true) l.
Proof.
  induction l as [|x l IH]; simpl; intros H; [split; [reflexivity | constructor]|].
  change (completes (bind (f x) (fun _ => forM_ l f)) = true) in H.
  change (out_of (bind (f x) (fun _ => forM_ l f))) with (out_of (f x ;;; forM_ l f)).
  rewrite completes_bind in H. rewrite out_of_bind.
  destruct (f x) as [a e o | e o] eqn:E; [|discriminate].
  destruct (IH H) as [Ho Hc]. simpl. rewrite Ho. split; [reflexivity|].
  constructor; [now rewrite E | exact Hc].
Qed.

Lemma completes_forM_ {A : Type} (l : list A) (f : A -> outcome unit) :
  Forall (fun x => completes (f x) = true) l -> completes (forM_ l f) = true.
Proof.
  induction 1 as [|x l Hx _ IH]; simpl; [reflexivity|].
  change (completes (bind (f x) (fun _ => forM_ l f)) = true).
  rewrite completes_bind. destruct (f x); [exact IH | discriminate].
Qed.

Section Properties.

Variable hp : helpers.

Lemma quiet_funcSummary (g : objcGen) (obj : Func) : quiet (objcGen_funcSummary hp g obj).
Proof.
  unfold objcGen_funcSummary.
  destruct (f_results obj) as [|p [|r1 [|r2 rs]]]; quiet_tac.
Qed.

Lemma quiet_read_value (g : objcGen) (p : paramInfo) : quiet (read_value hp g p).
Proof. unfold read_value. quiet_tac. Qed.

Lemma quiet_read_out (g : objcGen) (p : paramInfo) : quiet (read_out hp g p).
Proof. unfold read_out. quiet_tac. Qed.

Lemma quiet_genFunc (g : objcGen) (d c : string) (s : funcSummary) (b : bool) :
  quiet (genFunc hp g d c s b).
Proof.
  unfold genFunc.
  apply quiet_bind; [|intros; apply quiet_pure].
  destruct (returnsVal s).
  - destruct (s_retParams s); [apply quiet_pure | apply quiet_read_value].
  - apply quiet_bind; [|intros; apply quiet_pure].
    apply quiet_forM. intros; apply quiet_read_out.
Qed.


Lemma quiet_reads (g : objcGen) (s : funcSummary) :
  quiet (if returnsVal s
         then match s_retParams s with
              | p :: _ => read_value hp g p
              | [] => pure []
              end
         else blocks <- forM (s_retParams s) (read_out hp g) ;; pure (concat blocks)).
Proof.
  destruct (returnsVal s).
  - destruct (s_retParams s); [apply quiet_pure | apply quiet_read_value].
  - apply quiet_bind; [|intros; apply quiet_pure].
    apply quiet_forM. intros; apply quiet_read_out.
Qed.

Lemma genFunc_sends (g : objcGen) (d c : string) (s : funcSummary) (b : bool) body e o :
  genFunc hp g d c s b = Done body e o -> In (SSend d c) body.
Proof.
  unfold genFunc. destruct (quiet_reads g s) as (r & e' & Hr). rewrite Hr. simpl.
  intros H. injection H as <- _ _.
  right. right. apply in_or_app. left.
  apply in_or_app. right. apply in_or_app. right. now left.
Qed.

(** What [genField] and [genMethod] print are method definitions whose
    bodies [genFunc] made for the descriptor macro of the struct. *)
Lemma genField_out (P : item -> Prop) (g : objcGen) (desc : string) (f : Var) :
  (forall h body c s e,
      genFunc hp g (desc ++ "_DESCRIPTOR_") c s true = Done body e [] ->
      P (IMethod h body)) ->
  Forall P (out_of (genField hp g desc f)).
Proof.
  intros HP. unfold genField.
  apply Forall_out_bind'; [apply Forall_out_quiet, quiet_logged|]. intros r _ _ _.
  apply Forall_out_bind'; [apply Forall_out_quiet, quiet_asMethod|]. intros h _ _ _.
  apply Forall_out_bind'; [apply Forall_out_quiet, quiet_genFunc|]. intros body e o Hb.
  assert (o = []) as ->.
  { destruct (quiet_genFunc g (desc ++ "_DESCRIPTOR_")
                (desc ++ "_FIELD_" ++ v_name f ++ "_GET_")
                {| s_name := v_name f; s_ret := r; s_params := [];
                   s_retParams := [{| typ := v_type f; name := "ret_" |}] |} true)
      as (a' & e' & Hq).
    rewrite Hq in Hb. now injection Hb. }
  apply Forall_out_bind'; [simpl; constructor; [eapply HP; exact Hb | constructor]|].
  intros _ _ _ _.
  apply Forall_out_bind'; [apply Forall_out_quiet, quiet_asMethod|]. intros h' _ _ _.
  apply Forall_out_bind'; [apply Forall_out_quiet, quiet_genFunc|]. intros body' e2 o2 Hb'.
  assert (o2 = []) as ->.
  { destruct (quiet_genFunc g (desc ++ "_DESCRIPTOR_")
                (desc ++ "_FIELD_" ++ v_name f ++ "_SET_")
                {| s_name := "set" ++ v_name f; s_ret := "void";
                   s_params := [{| typ := v_type f; name := "v" |}];
                   s_retParams := [] |} true)
      as (a' & e' & Hq).
    rewrite Hq in Hb'. now injection Hb'. }
  simpl. constructor; [eapply HP; exact Hb' | constructor].
Qed.

Lemma genMethod_out (P : item -> Prop) (g : objcGen) (desc : string) (m : Func) :
  (forall h body c s e,
      genFunc hp g (desc ++ "_DESCRIPTOR_") c s true = Done body e [] ->
      P (IMethod h body)) ->
  Forall P (out_of (genMethod hp g desc m)).
Proof.
  intros HP. unfold genMethod.
  apply Forall_out_bind'; [apply Forall_out_quiet, quiet_funcSummary|].
  intros [s|] _ _ _; [|constructor].
  apply Forall_out_bind'; [apply Forall_out_quiet, quiet_asMethod|]. intros h _ _ _.
  apply Forall_out_bind'; [apply Forall_out_quiet, quiet_genFunc|]. intros body e o Hb.
  assert (o = []) as ->.
  { destruct (quiet_genFunc g (desc ++ "_DESCRIPTOR_") (desc ++ "_" ++ f_name m ++ "_") s true)
      as (a' & e' & Hq).
    rewrite Hq in Hb. now injection Hb. }
  simpl. constructor; [eapply HP; exact Hb | constructor].
Qed.

(** The part of [genStructM] after the macro definitions. *)
Lemma genStructM_out (g : objcGen) (obj : TypeName) :
  exists rest,
    out_of (genStructM hp g obj) = (struct_defines g obj ++ rest)%list /\
    Forall (fun i =>
              match i with
              | IDefine _ _ => False
              | IMethod _ body =>
                  exists c, In (SSend (struct_desc g obj ++ "_DESCRIPTOR_") c) body
              | _ => True
              end) rest.
Proof.
  unfold genStructM.
  rewrite (out_of_after _ _ tt
             [IDefine (struct_desc g obj ++ "_DESCRIPTOR_")
                (dq ++ "go." ++ pkgName g ++ "." ++ tn_name obj ++ dq)]) by reflexivity.
  erewrite out_of_after by apply forM__Printf2.
  erewrite out_of_after by apply forM__Printf.
  match goal with
  | |- exists rest, (_ ++ _ ++ _ ++ ?t)%list = _ /\ _ => exists t
  end.
  split.
  - unfold struct_defines. cbn [app]. now rewrite <- app_assoc.
  - assert (HP : forall (h : string) body c s e,
               genFunc hp g (struct_desc g obj ++ "_DESCRIPTOR_") c s true = Done body e [] ->
               exists c0, In (SSend (struct_desc g obj ++ "_DESCRIPTOR_") c0) body).
    { intros h body c s e Hb. exists c. eapply genFunc_sends; exact Hb. }
    do 5 (apply Forall_out_bind'; [now (simpl; repeat constructor) | intros _ _ _ _]).
    apply Forall_out_bind'.
    { apply Forall_out_forM_. intros f _. apply genField_out. exact HP. }
    intros _ _ _ _.
    apply Forall_out_bind'.
    { apply Forall_out_forM_. intros m _. apply genMethod_out. exact HP. }
    intros _ _ _ _. simpl. repeat constructor.
Qed.

Lemma call_sites_app (a b : list item) :
  call_sites (a ++ b) = (call_sites a ++ call_sites b)%list.
Proof. unfold call_sites. apply flat_map_app. Qed.

Lemma filter_is_define_struct_defines (g : objcGen) (obj : TypeName) :
  filter is_define (struct_defines g obj) = struct_defines g obj.
Proof.
  apply filter_all. unfold struct_defines. constructor; [reflexivity|].
  apply Forall_app. split.
  - apply Forall_flat_map. apply Forall_forall. intros x _. now repeat constructor.
  - apply Forall_map. apply Forall_forall. now intros x _.
Qed.

Lemma genStructM_defines (g : objcGen) (obj : TypeName) :
  filter is_define (out_of (genStructM hp g obj)) = struct_defines g obj.
Proof.
  destruct (genStructM_out g obj) as (rest & -> & Hrest).
  rewrite filter_app, filter_is_define_struct_defines.
  rewrite (filter_none is_define rest); [apply app_nil_r|].
  eapply Forall_impl; [|exact Hrest].
  intros [ | | | | ]; simpl; intros; try reflexivity; contradiction.
Qed.


(** ** Indexed iteration *)

Lemma In_combine_seq {A : Type} (l : list A) (start i : nat) (x : A) :
  nth_error l i = Some x -> In (start + i, x) (combine (seq start (length l)) l).
Proof.
  revert start i. induction l as [|y l IH]; intros start i H.
  - destruct i; discriminate.
  - destruct i as [|i]; simpl in *.
    + injection H as ->. left. f_equal. lia.
    + right. replace (start + S i) with (S start + i) by lia. now apply IH.
Qed.

Lemma In_indexed {A : Type} (l : list A) (i : nat) (x : A) :
  nth_error l i = Some x -> In (i, x) (indexed l).
Proof. intros H. apply (In_combine_seq l 0 i x H). Qed.

Lemma combine_seq_map {A B : Type} (f : A -> B) (l : list A) (start : nat) :
  combine (seq start (length (map f l))) (map f l)
  = map (fun p => (fst p, f (snd p))) (combine (seq start (length l)) l).
Proof.
  revert start. induction l as [|x l IH]; intros start; simpl; [reflexivity|].
  now rewrite IH.
Qed.

Lemma indexed_map {A B : Type} (f : A -> B) (l : list A) :
  indexed (map f l) = map (fun p => (fst p, f (snd p))) (indexed l).
Proof. apply combine_seq_map. Qed.

(** ** The codes of struct members (C3) *)

Lemma field_get_value (i : nat) :
  c_int_literal (field_get_literal i) = Some (Z.lor (Z.shiftl (Z.of_nat i) 8) 0x0f).
Proof.
  unfold field_get_literal.
  change "0f)" with (String (digit_char 0) (String (digit_char 15) "") ++ ")").
  rewrite c_int_literal_hex by lia.
  rewrite shift_or_low by lia. f_equal. lia.
Qed.

Lemma field_set_value (i : nat) :
  c_int_literal (field_set_literal i) = Some (Z.lor (Z.shiftl (Z.of_nat i) 8) 0x1f).
Proof.
  unfold field_set_literal.
  change "1f)" with (String (digit_char 1) (String (digit_char 15) "") ++ ")").
  rewrite c_int_literal_hex by lia.
  rewrite shift_or_low by lia. f_equal. lia.
Qed.

Lemma method_value (i : nat) :
  c_int_literal (method_literal i) = Some (Z.lor (Z.shiftl (Z.of_nat i) 8) 0x0c).
Proof.
  unfold method_literal.
  change "0c)" with (String (digit_char 0) (String (digit_char 12) "") ++ ")").
  rewrite c_int_literal_hex by lia.
  rewrite shift_or_low by lia. f_equal. lia.
Qed.

(** C3.  Within one struct descriptor [genStructM] defines, for the field
    at index [i], the getter code [(i<<8)|0x0f] and the setter code
    [(i<<8)|0x1f], and for the method at index [k] the code [(k<<8)|0x0c];
    these are all the macros it defines besides the descriptor, and over all
    indices the three families are pairwise disjoint.  The constants of the
    Go half for struct S of testpkg are the same codes. *)
Theorem struct_code_families (g : objcGen) (obj : TypeName) (i j k : nat) :
  filter is_define (out_of (genStructM hp g obj)) = struct_defines g obj /\
  (forall f, nth_error (tn_fields obj) i = Some f ->
     In (IDefine (struct_desc g obj ++ "_FIELD_" ++ v_name f ++ "_GET_") (field_get_literal i))
        (out_of (genStructM hp g obj)) /\
     In (IDefine (struct_desc g obj ++ "_FIELD_" ++ v_name f ++ "_SET_") (field_set_literal i))
        (out_of (genStructM hp g obj))) /\
  (forall m, nth_error (tn_methods obj) k = Some m ->
     In (IDefine (struct_desc g obj ++ "_" ++ f_name m ++ "_") (method_literal k))
        (out_of (genStructM hp g obj))) /\
  c_int_literal (field_get_literal i) = Some (Z.lor (Z.shiftl (Z.of_nat i) 8) 0x0f) /\
  c_int_literal (field_set_literal j) = Some (Z.lor (Z.shiftl (Z.of_nat j) 8) 0x1f) /\
  c_int_literal (method_literal k) = Some (Z.lor (Z.shiftl (Z.of_nat k) 8) 0x0c) /\
  c_int_literal (field_get_literal i) <> c_int_literal (field_set_literal j) /\
  c_int_literal (field_get_literal i) <> c_int_literal (method_literal k) /\
  c_int_literal (field_set_literal j) <> c_int_literal (method_literal k) /\
  c_int_literal (field_get_literal 0) = Some proxyS_X_Get_Code /\
  c_int_literal (field_set_literal 0) = Some proxyS_X_Set_Code /\
  c_int_literal (field_get_literal 1) = Some proxyS_Y_Get_Code /\
  c_int_literal (field_set_literal 1) = Some proxyS_Y_Set_Code /\
  c_int_literal (method_literal 0) = Some proxyS_Sum_Code /\
  c_int_literal (method_literal 1) = Some proxyS_TryTwoStrings_Code.
Proof.
  assert (Hin : forall x, In x (struct_defines g obj) -> In x (out_of (genStructM hp g obj))).
  { intros x Hx. rewrite <- genStructM_defines in Hx. now apply filter_In in Hx. }
  split; [apply genStructM_defines|].
  split.
  { intros f Hf. apply In_indexed in Hf.
    split; apply Hin; unfold struct_defines; right; apply in_or_app; left;
      apply in_flat_map; exists (i, f); (split; [exact Hf|]); simpl; auto. }
  split.
  { intros m Hm. apply In_indexed in Hm.
    apply Hin. unfold struct_defines. right. apply in_or_app. right.
    apply in_map_iff. exists (k, m). now split. }
  rewrite !field_get_value, !field_set_value, !method_value.
  rewrite !shift_or_low by lia.
  repeat split; try reflexivity; intros H; injection H; lia.
Qed.

(** ** The descriptor of struct members (C6) *)

Lemma assoc_head {B : Type} (x : string) (v : B) (l : list (string * B)) :
  assoc x ((x, v) :: l) = Some v.
Proof. simpl. now rewrite String.eqb_refl. Qed.

(** C6, as amended.  The descriptor macro that [genStructM] defines for a
    struct stands for the text "go." + package name + "." + type name, every
    method definition printed for the struct (getter, setter or method)
    sends under that macro, and the descriptor constant of the Go half for
    struct S of testpkg is that text. *)
Theorem struct_member_descriptor (g : objcGen) (obj : TypeName) :
  (exists v,
     macro_value (out_of (genStructM hp g obj)) (struct_desc g obj ++ "_DESCRIPTOR_") = Some v /\
     c_string_literal v = Some ("go." ++ pkgName g ++ "." ++ tn_name obj)) /\
  Forall (fun i =>
            match i with
            | IMethod _ body =>
                exists c, In (SSend (struct_desc g obj ++ "_DESCRIPTOR_") c) body
            | _ => True
            end) (out_of (genStructM hp g obj)) /\
  proxyS_Descriptor = "go." ++ Name testpkg ++ "." ++ tn_name testpkg_S.
Proof.
  destruct (genStructM_out g obj) as (rest & Ho & Hrest).
  split; [|split; [|reflexivity]].
  - exists (dq ++ "go." ++ pkgName g ++ "." ++ tn_name obj ++ dq). split.
    + rewrite Ho. unfold macro_value, struct_defines. cbn [app call_sites flat_map].
      apply assoc_head.
    + replace (dq ++ "go." ++ pkgName g ++ "." ++ tn_name obj ++ dq)
        with (fmt_q ("go." ++ pkgName g ++ "." ++ tn_name obj)).
      * apply c_string_literal_quoted.
      * unfold fmt_q. f_equal. simpl. do 3 f_equal.
        rewrite append_assoc. f_equal.
  - rewrite Ho. apply Forall_app. split.
    + unfold struct_defines. constructor; [exact I|].
      apply Forall_app. split.
      * apply Forall_flat_map. apply Forall_forall. intros x _. now repeat constructor.
      * apply Forall_map. apply Forall_forall. now intros x _.
    + eapply Forall_impl; [|exact Hrest].
      intros [ | | | | ]; simpl; auto.
Qed.


(** ** What [init] collects *)

Lemma init_loop_spec (objs : list Object) (fs : list Func) (ns : list TypeName) :
  init_loop objs fs ns = ((fs ++ exported_funcs objs)%list, (ns ++ exported_types objs)%list).
Proof.
  revert fs ns. induction objs as [|o objs IH]; intros fs ns; simpl.
  - now rewrite !app_nil_r.
  - destruct o as [f | t | n | n]; simpl;
      destruct (Exported _); simpl; rewrite IH; rewrite <- ?app_assoc; reflexivity.
Qed.

Lemma funcs_init (g : objcGen) : funcs (init g) = exported_funcs (Scope (pkg g)).
Proof. unfold init. simpl. now rewrite init_loop_spec. Qed.

Lemma names_init (g : objcGen) : names (init g) = exported_types (Scope (pkg g)).
Proof. unfold init. simpl. now rewrite init_loop_spec. Qed.

Lemma init_same_pkg (g1 g2 : objcGen) :
  pkg g1 = pkg g2 -> init g1 = with_err (init g2) (err g1).
Proof. unfold init, with_err. simpl. now intros ->. Qed.

(** Nothing that [genM] does after [init] reads [g.err]. *)
Lemma genM_body_with_err (g : objcGen) (e : ErrorList) :
  genM_body hp (with_err g e) = genM_body hp g.
Proof. destruct g. reflexivity. Qed.

Lemma r_out_genM (g : objcGen) : r_out (genM hp g) = out_of (genM_body hp (init g)).
Proof. unfold genM. now destruct (genM_body hp (init g)). Qed.

Lemma returns_genM (g : objcGen) : returns (genM hp g) = completes (genM_body hp (init g)).
Proof. unfold genM. now destruct (genM_body hp (init g)). Qed.

Lemma forM__Printf_id (l : list item) : forM_ l Printf = Done tt [] l.
Proof.
  induction l as [|x l IH]; simpl; [reflexivity|]. now rewrite IH.
Qed.

Lemma genM_body_out (g : objcGen) :
  out_of (genM_body hp g)
  = (preamble g ++ [IDefine "_DESCRIPTOR_" (fmt_q (pkgName g)); IText ""]
       ++ map (fun i_obj =>
                 IDefine ("_CALL_" ++ f_name (snd i_obj) ++ "_")
                   (fmt_d (Z.of_nat (fst i_obj) + 1))) (indexed (funcs g))
       ++ IText "" :: out_of (genM_rest hp g))%list.
Proof.
  unfold genM_body.
  erewrite out_of_after by apply forM__Printf_id.
  erewrite out_of_after by reflexivity.
  erewrite out_of_after by reflexivity.
  erewrite out_of_after by apply forM__Printf.
  erewrite out_of_after by reflexivity.
  reflexivity.
Qed.

Lemma completes_after {A B : Type} (m : outcome A) (k : outcome B) a e o :
  m = Done a e o -> completes (m ;;; k) = completes k.
Proof. intros ->. simpl. now destruct k. Qed.

Lemma completes_genM_body (g : objcGen) :
  completes (genM_body hp g) = completes (genM_rest hp g).
Proof.
  unfold genM_body.
  erewrite completes_after by apply forM__Printf_id.
  erewrite completes_after by reflexivity.
  erewrite completes_after by reflexivity.
  erewrite completes_after by apply forM__Printf.
  erewrite completes_after by reflexivity.
  reflexivity.
Qed.


(** ** The codes of free functions (C2) *)

(** C2.  The free exported functions are collected in the order of the
    package scope; the function at index [i] of that list is given the macro
    [_CALL_<name>_] with the decimal literal [i+1], so the codes are 1, 2,
    ... in that order, and the descriptor macro stands for the package name.
    In testpkg [Sum] is at index 8, so its code is 9, and the Go half
    registers [proxy_Sum] under ("testpkg", 9). *)
Theorem free_function_codes (g : objcGen) (i : nat) (f : Func) :
  nth_error (funcs (init g)) i = Some f ->
  funcs (init g) = exported_funcs (Scope (pkg g)) /\
  macro_value (r_out (genM hp g)) "_DESCRIPTOR_" = Some (fmt_q (Name (pkg g))) /\
  c_string_literal (fmt_q (Name (pkg g))) = Some (Name (pkg g)) /\
  In (IDefine ("_CALL_" ++ f_name f ++ "_") (fmt_d (Z.of_nat i + 1))) (r_out (genM hp g)) /\
  c_int_literal (fmt_d (Z.of_nat i + 1)) = Some (Z.of_nat i + 1)%Z /\
  nth_error (funcs (init (newGen testpkg))) 8 = Some testpkg_Sum_func /\
  registered (Name testpkg) 9 = Some h_proxy_Sum.
Proof.
  intros Hf.
  split; [apply funcs_init|].
  rewrite r_out_genM, genM_body_out.
  split; [|split; [apply c_string_literal_quoted|]].
  - unfold macro_value. rewrite call_sites_app. cbn [preamble call_sites flat_map app].
    apply assoc_head.
  - split; [|split; [apply c_int_literal_fmt_d; lia | split; reflexivity]].
    apply in_or_app. right. apply in_or_app. right. apply in_or_app. left.
    apply in_map_iff. exists (i, f). split; [reflexivity | now apply In_indexed].
Qed.

(** ** Determinism of the code assignment (C1) *)

Lemma call_sites_none (l : list item) :
  Forall (fun i => is_define i = false) l -> call_sites l = [].
Proof.
  induction 1 as [|x l Hx _ IH]; [reflexivity|].
  unfold call_sites in *. simpl. rewrite IH. now destruct x.
Qed.

Lemma call_sites_text (t : string) (l : list item) :
  call_sites (IText t :: l) = call_sites l.
Proof. reflexivity. Qed.

Lemma call_sites_define (m v : string) (l : list item) :
  call_sites (IDefine m v :: l) = (m, v) :: call_sites l.
Proof. reflexivity. Qed.

Lemma call_sites_flat_map {A : Type} (f : A -> list item) (l : list A) :
  call_sites (flat_map f l) = flat_map (fun x => call_sites (f x)) l.
Proof.
  induction l as [|x l IH]; simpl; [reflexivity|].
  now rewrite call_sites_app, IH.
Qed.

Lemma call_sites_map {A : Type} (a b : A -> string) (l : list A) :
  call_sites (map (fun x => IDefine (a x) (b x)) l) = map (fun x => (a x, b x)) l.
Proof.
  induction l as [|x l IH]; [reflexivity|].
  unfold call_sites in *. simpl. now rewrite IH.
Qed.

Lemma flat_map_map {A B C : Type} (f : B -> list C) (h : A -> B) (l : list A) :
  flat_map f (map h l) = flat_map (fun x => f (h x)) l.
Proof.
  induction l as [|x l IH]; simpl; [reflexivity|]. now rewrite IH.
Qed.

Lemma genFuncM_out (g : objcGen) (obj : Func) :
  Forall (fun i => is_define i = false) (out_of (genFuncM hp g obj)).
Proof.
  unfold genFuncM.
  apply Forall_out_bind'; [apply Forall_out_quiet, quiet_funcSummary|].
  intros [s|] _ _ _; [|constructor].
  apply Forall_out_bind'; [apply Forall_out_quiet, quiet_asFunc|]. intros h _ _ _.
  apply Forall_out_bind'; [apply Forall_out_quiet, quiet_genFunc|]. intros body _ _ _.
  simpl. now repeat constructor.
Qed.

Lemma call_sites_struct_defines (g : objcGen) (obj : TypeName) :
  call_sites (struct_defines g obj)
  = shape_sites (pkgName g)
      {| sh_name := tn_name obj; sh_struct := true;
         sh_fields := map v_name (tn_fields obj);
         sh_methods := map f_name (tn_methods obj) |}.
Proof.
  unfold struct_defines, shape_sites. cbn [sh_struct sh_name sh_fields sh_methods].
  rewrite call_sites_define, call_sites_app. f_equal.
  f_equal.
  - rewrite indexed_map, flat_map_map, call_sites_flat_map. reflexivity.
  - rewrite indexed_map, map_map. now rewrite call_sites_map.
Qed.

(** The macros printed for one exported type. *)
Lemma call_sites_type (g : objcGen) (obj : TypeName) :
  call_sites
    (out_of (match tn_underlying obj with
             | types.Struct => genStructM hp g obj
             | types.Interface => genInterfaceM g obj
             | _ => pure tt
             end ;;; Printf (IText "")))
  = shape_sites (pkgName g) (shape_of obj).
Proof.
  rewrite out_of_bind, call_sites_app.
  match goal with
  | |- (_ ++ call_sites ?t)%list = _ =>
      assert (Ht : call_sites t = []) by (now destruct (match tn_underlying obj with
                                                         | types.Struct => _
                                                         | _ => _
                                                         end))
  end.
  rewrite Ht, app_nil_r. unfold shape_of.
  destruct (tn_underlying obj); try reflexivity.
  destruct (genStructM_out g obj) as (rest & -> & Hrest).
  rewrite call_sites_app, call_sites_struct_defines.
  rewrite (call_sites_none rest); [apply app_nil_r|].
  eapply Forall_impl; [|exact Hrest].
  intros [ | | | | ]; simpl; intros; try reflexivity; contradiction.
Qed.

Lemma call_sites_genM_rest (g : objcGen) :
  completes (genM_rest hp g) = true ->
  call_sites (out_of (genM_rest hp g))
  = flat_map (fun obj => shape_sites (pkgName g) (shape_of obj)) (names g).
Proof.
  unfold genM_rest. intros Hc.
  rewrite completes_bind in Hc. rewrite out_of_bind, call_sites_app.
  match type of Hc with
  | match ?m with _ => _ end = true => destruct m as [a e o | e o] eqn:Em; [|discriminate]
  end.
  assert (Ha : completes
                 (forM_ (names g)
                    (fun obj =>
                       match tn_underlying obj with
                       | types.Struct => genStructM hp g obj
                       | types.Interface => genInterfaceM g obj
                       | _ => pure tt
                       end ;;; Printf (IText ""))) = true) by now rewrite Em.
  apply out_forM__complete in Ha. destruct Ha as [Ho _].
  rewrite Em in Ho. cbn [out_of] in Ho |- *. rewrite Ho.
  rewrite call_sites_flat_map.
  rewrite (call_sites_none (out_of (forM_ (funcs g) _))).
  - rewrite app_nil_r. apply flat_map_ext. intros obj. apply call_sites_type.
  - apply Forall_out_forM_. intros f _.
    apply Forall_out_bind'; [apply genFuncM_out|]. intros _ _ _ _.
    simpl. now repeat constructor.
Qed.

Lemma call_sites_genM (g : objcGen) :
  returns (genM hp g) = true ->
  call_sites (r_out (genM hp g)) = skeleton_sites (skeleton (pkg g)).
Proof.
  rewrite returns_genM, completes_genM_body, r_out_genM, genM_body_out. intros Hc.
  rewrite !call_sites_app, call_sites_text, (call_sites_genM_rest _ Hc).
  rewrite call_sites_define, call_sites_text, call_sites_map.
  replace (call_sites (preamble (init g))) with (@nil (string * string)) by reflexivity.
  unfold skeleton_sites, skeleton.
  cbn [app fst snd].
  rewrite indexed_map, map_map, flat_map_map.
  reflexivity.
Qed.

(** C1.  The items that [genM] prints depend on the package alone: two runs,
    whatever the generators held before (stale functions and names, earlier
    diagnostics), print the same file and so give every callable surface the
    same (descriptor, code) pair.  The call-site table of a run that returns
    is a function of the skeleton of the package: the order and the kind of
    its exported declarations, and no type. *)
Theorem code_assignment_deterministic (g1 g2 : objcGen) :
  (pkg g1 = pkg g2 -> r_out (genM hp g1) = r_out (genM hp g2)) /\
  (returns (genM hp g1) = true ->
     call_sites (r_out (genM hp g1)) = skeleton_sites (skeleton (pkg g1))) /\
  (skeleton (pkg g1) = skeleton (pkg g2) ->
     returns (genM hp g1) = true -> returns (genM hp g2) = true ->
     call_sites (r_out (genM hp g1)) = call_sites (r_out (genM hp g2))).
Proof.
  split; [|split].
  - intros Hp. rewrite !r_out_genM, (init_same_pkg g1 g2 Hp).
    now rewrite genM_body_with_err.
  - apply call_sites_genM.
  - intros Hs H1 H2. now rewrite !call_sites_genM, Hs.
Qed.


(** ** Signature normalisation (C4, C5) *)

Lemma funcSummary_too_many (g : objcGen) (obj : Func) :
  3 <= length (f_results obj) ->
  objcGen_funcSummary hp g obj = Done None [ErrTooManyResults (f_name obj)] [].
Proof.
  unfold objcGen_funcSummary.
  destruct (f_results obj) as [|p [|r1 [|r2 rs]]]; simpl; intros H; try lia.
  reflexivity.
Qed.

Lemma funcSummary_second_not_error (g : objcGen) (obj : Func) (r0 r1 : Var) :
  f_results obj = [r0; r1] -> isErrorType (v_type r1) = false ->
  objcGen_funcSummary hp g obj = Done None [ErrSecondResult (f_name obj)] [].
Proof.
  unfold objcGen_funcSummary. intros -> ->. reflexivity.
Qed.

(** C4.  [funcSummary] classifies a function by the number of its results:
    with three or more it records the too-many-results diagnostic and
    returns no summary; with exactly two of which the second is not the
    error type it records the result-not-error diagnostic and returns no
    summary; with the error type as sole result it records nothing and
    returns a summary under the boolean-success convention: the return type
    is BOOL, the only out-parameter is the error, and no value is
    returned. *)
Theorem funcSummary_by_result_count (g : objcGen) (obj : Func) :
  (3 <= length (f_results obj) ->
     objcGen_funcSummary hp g obj = Done None [ErrTooManyResults (f_name obj)] [] /\
     classify (ErrTooManyResults (f_name obj)) = TooManyResults) /\
  (forall r0 r1, f_results obj = [r0; r1] -> isErrorType (v_type r1) = false ->
     objcGen_funcSummary hp g obj = Done None [ErrSecondResult (f_name obj)] [] /\
     classify (ErrSecondResult (f_name obj)) = ResultNotError) /\
  (forall p, f_results obj = [p] -> isErrorType (v_type p) = true ->
     exists s,
       objcGen_funcSummary hp g obj = Done (Some s) [] [] /\
       s_ret s = "BOOL" /\
       s_retParams s = [ {| typ := v_type p; name := "error" |} ] /\
       returnsVal s = false).
Proof.
  split; [|split].
  - intros H. split; [now apply funcSummary_too_many | reflexivity].
  - intros r0 r1 H0 H1. split; [now apply (funcSummary_second_not_error g obj r0 r1) | reflexivity].
  - intros p Hp He. unfold objcGen_funcSummary. rewrite Hp, He.
    eexists. split; [reflexivity|]. simpl. unfold returnsVal. simpl. now rewrite He.
Qed.

(** C5, as amended.  A function with exactly two results of which the
    second is not the error type fails normalisation with the
    result-not-error diagnostic (not the too-many-results one), and
    [genFuncM] prints nothing for it. *)
Theorem two_results_second_not_error (g : objcGen) (obj : Func) (r0 r1 : Var) :
  f_results obj = [r0; r1] -> isErrorType (v_type r1) = false ->
  objcGen_funcSummary hp g obj = Done None [ErrSecondResult (f_name obj)] [] /\
  classify (ErrSecondResult (f_name obj)) = ResultNotError /\
  genFuncM hp g obj = Done tt [ErrSecondResult (f_name obj)] [].
Proof.
  intros H0 H1.
  pose proof (funcSummary_second_not_error g obj r0 r1 H0 H1) as Hs.
  split; [exact Hs | split; [reflexivity|]].
  unfold genFuncM. now rewrite Hs.
Qed.

(** ** The type mapper (C8) *)

Lemma objcType_in_classified (path pname prefix : string) (t : Type_) :
  Forall (fun d => classify d = UnsupportedType) (snd (objcType_in path pname prefix t)).
Proof.
  induction t as [k | len e IH | e IH | | e IH | | | k IHk e IH | e IH | a b c u IH | ];
    try (simpl; now repeat constructor).
  - destruct k; simpl; now repeat constructor.
  - simpl. destruct (objcType_in path pname prefix e) as [elem errs].
    destruct (elem =? "byte"); simpl in *; [exact IH|].
    apply Forall_app. split; [exact IH | now repeat constructor].
  - destruct e; try (simpl; now repeat constructor).
    cbn [objcType_in] in *.
    destruct (negb (pkgPath =? path)); [simpl; now repeat constructor|].
    destruct e; simpl; now repeat constructor.
  - simpl. destruct (negb (a =? path)); [simpl; now repeat constructor|].
    destruct u; simpl; now repeat constructor.
Qed.

(** With the name prefix that [init] sets, only [uint8] maps to [byte]. *)
Lemma objcType_in_byte (path pname x : string) (t : Type_) :
  fst (objcType_in path pname ("Go" ++ x) t) = "byte" -> t = types.Basic types.Uint8.
Proof.
  destruct t as [k | len e | e | | e | | | k e | e | a b c u | ]; simpl;
    try discriminate.
  - destruct k; simpl; try discriminate. reflexivity.
  - match goal with
    | |- context [objcType_in ?a ?b ?c e] => destruct (objcType_in a b c e) as [elem errs]
    end.
    destruct (elem =? "byte"); simpl; discriminate.
  - destruct e; simpl; try discriminate.
    destruct (negb (pkgPath =? path)); simpl; [discriminate|].
    destruct e; simpl; discriminate.
  - destruct (negb (a =? path)); simpl; [discriminate|].
    destruct u; simpl; discriminate.
Qed.

(** With that prefix the Objective-C type is never the empty string, so
    [but_last] is applied within range. *)
Lemma objcType_nonempty (g : objcGen) (t : Type_) : fst (objcType (init g) t) <> "".
Proof.
  unfold objcType. cbn [init namePrefix pkg].
  destruct t as [k | len e | e | | e | | | k e | e | a b c u | ]; simpl;
    try discriminate.
  - destruct k; simpl; discriminate.
  - match goal with
    | |- context [objcType_in ?a ?b ?c e] => destruct (objcType_in a b c e) as [elem errs]
    end.
    destruct (elem =? "byte"); simpl; discriminate.
  - destruct e; simpl; try discriminate.
    destruct (negb (pkgPath =? Path (pkg g))); simpl; [discriminate|].
    destruct e; simpl; discriminate.
  - destruct (negb (a =? Path (pkg g))); simpl; [discriminate|].
    destruct u; simpl; discriminate.
Qed.

Lemma objcType_unsupported (g : objcGen) (t : Type_) :
  unsupported (init g) t ->
  fst (objcType (init g) t) = "TODO" /\ snd (objcType (init g) t) <> [].
Proof.
  unfold objcType. cbn [init namePrefix pkg pkgName].
  set (pre := "Go" ++ capitalize (Name (pkg g))).
  intros H. inversion H as [e He | k e | e He He' | path pname n u Hp | path pname n u Hs Hi
                            | len e | e | | | | k Hk]; subst;
    cbn [objcType_in]; try (split; [reflexivity | discriminate]).
  - destruct (objcType_in (Path (pkg g)) (Name (pkg g)) pre e) as [elem errs] eqn:E.
    destruct (elem =? "byte") eqn:Eb.
    + apply String.eqb_eq in Eb. subst elem.
      exfalso. apply He. apply (objcType_in_byte (Path (pkg g)) (Name (pkg g))
                                  (capitalize (Name (pkg g)))).
      fold pre. now rewrite E.
    + split; [reflexivity|]. simpl. intros Hn. now apply app_eq_nil in Hn as [_ Hn].
  - destruct e; try (split; [reflexivity | discriminate]).
    + exfalso. eapply He. reflexivity.
    + now elim He'.
  - cbn [init pkg Path] in Hp.
    assert (Hq : (path =? Path (pkg g)) = false) by now apply String.eqb_neq.
    rewrite Hq. simpl. split; [reflexivity | discriminate].
  - destruct (negb (path =? Path (pkg g))); simpl; [split; [reflexivity | discriminate]|].
    destruct u; try (split; [reflexivity | discriminate]); contradiction.
  - simpl in Hk.
    repeat (destruct Hk as [<- | Hk]; [split; [reflexivity | discriminate]|]).
    contradiction.
Qed.


(** ** Generation goes on after a diagnostic (C8) *)

Lemma completes_bind_all {A B : Type} (m : outcome A) (f : A -> outcome B) :
  completes m = true -> (forall a, completes (f a) = true) ->
  completes (bind m f) = true.
Proof.
  intros Hm Hf. rewrite completes_bind. destruct m; [apply Hf | discriminate].
Qed.

Lemma err_of_after {A B : Type} (m : outcome A) (k : outcome B) a o :
  m = Done a [] o -> err_of (m ;;; k) = err_of k.
Proof. intros ->. simpl. now destruct k. Qed.

Lemma err_forM__complete {A : Type} (l : list A) (f : A -> outcome unit) :
  completes (forM_ l f) = true ->
  err_of (forM_ l f) = flat_map (fun x => err_of (f x)) l.
Proof.
  induction l as [|x l IH]; simpl; intros H; [reflexivity|].
  change (completes (bind (f x) (fun _ => forM_ l f)) = true) in H.
  change (err_of (bind (f x) (fun _ => forM_ l f))
          = (err_of (f x) ++ flat_map (fun x => err_of (f x)) l)%list).
  rewrite completes_bind in H. rewrite err_of_bind.
  destruct (f x) as [a e o | e o]; [|discriminate].
  now rewrite (IH H).
Qed.

Lemma err_forM_incl {A B : Type} (l : list A) (f : A -> outcome B) (x : A) :
  (forall y, quiet (f y)) -> In x l -> incl (err_of (f x)) (err_of (forM l f)).
Proof.
  intros Hq. induction l as [|y l IH]; intros Hx; [contradiction|].
  destruct (Hq y) as (a & e & Ey).
  destruct (quiet_forM l f Hq) as (ys & es & El).
  assert (E : err_of (forM (y :: l) f) = (e ++ es ++ [])%list).
  { simpl. rewrite Ey. simpl. rewrite El. reflexivity. }
  rewrite E.
  destruct Hx as [-> | Hx].
  - rewrite Ey. cbn [err_of]. apply incl_appl, incl_refl.
  - apply incl_appr, incl_appl.
    specialize (IH Hx). rewrite El in IH. exact IH.
Qed.

Lemma funcSummary_sig_ok (g : objcGen) (f : Func) :
  sig_ok f = true ->
  exists s e,
    objcGen_funcSummary hp g f = Done (Some s) e [] /\
    s_name s = f_name f /\
    s_params s
    = map (fun ip => {| typ := v_type (snd ip); name := paramName hp (f_params f) (fst ip) |})
          (indexed (f_params f)).
Proof.
  unfold sig_ok, objcGen_funcSummary.
  destruct (f_results f) as [|p [|r1 [|r2 rs]]]; intros H; try discriminate.
  - eexists _, _. split; [reflexivity|]. now split.
  - destruct (isErrorType (v_type p)).
    + eexists _, _. split; [reflexivity|]. now split.
    + eexists _, _. split; [reflexivity|]. now split.
  - rewrite H. eexists _, _. split; [reflexivity|]. now split.
Qed.

Lemma In_snd_indexed {A : Type} (l : list A) (x : A) :
  In x l -> exists i, In (i, x) (indexed l).
Proof.
  intros H. apply In_nth_error in H as (i & Hi).
  exists i. now apply In_indexed.
Qed.

(** The stub of a function with an accepted signature, and the diagnostics
    of its parameter types. *)
Lemma genFuncM_sig_ok (g : objcGen) (f : Func) :
  sig_ok f = true ->
  exists h body errs,
    genFuncM hp g f = Done tt errs [IFunc h body] /\
    In (SSend "_DESCRIPTOR_" ("_CALL_" ++ f_name f ++ "_")) body /\
    forall p, In p (f_params f) -> incl (snd (objcType g (v_type p))) errs.
Proof.
  intros Hok. destruct (funcSummary_sig_ok g f Hok) as (s & e & Hs & Hn & Hp).
  unfold genFuncM. rewrite Hs. cbn [bind].
  destruct (quiet_asFunc s g) as (h & eh & Hh).
  destruct (quiet_genFunc g "_DESCRIPTOR_" ("_CALL_" ++ s_name s ++ "_") s false)
    as (body & eb & Hb).
  rewrite Hh. cbn [bind]. rewrite Hb. cbn [bind Printf].
  exists h, body. eexists. split; [reflexivity|]. split.
  - rewrite <- Hn. eapply genFunc_sends. exact Hb.
  - intros p Hin. apply incl_appr, incl_appl.
    change eh with (err_of (Done h eh [])). rewrite <- Hh. unfold asFunc. rewrite err_of_bind.
    apply incl_appl.
    destruct (In_snd_indexed _ _ Hin) as (i & Hi).
    set (q := {| typ := v_type p; name := paramName hp (f_params f) i |}).
    assert (Hq : In q (s_params s)).
    { rewrite Hp. apply in_map_iff. exists (i, p). now split. }
    eapply incl_tran; [|apply (err_forM_incl _ _ q); [intros; quiet_tac | exact Hq]].
    cbn beta. rewrite err_of_bind. cbn [logged err_of]. apply incl_appl. apply incl_refl.
Qed.

Lemma completes_genField (g : objcGen) (desc : string) (f : Var) :
  completes (genField hp g desc f) = true.
Proof.
  unfold genField.
  repeat first
    [ apply completes_bind_all;
      [first [ apply quiet_completes; first [apply quiet_logged | apply quiet_asMethod
                                            | apply quiet_genFunc]
             | reflexivity ]
      | intros ]
    | reflexivity ].
Qed.

Lemma completes_genMethod (g : objcGen) (desc : string) (m : Func) :
  sig_ok m = true -> completes (genMethod hp g desc m) = true.
Proof.
  intros Hok. destruct (funcSummary_sig_ok g m Hok) as (s & e & Hs & _).
  unfold genMethod. rewrite Hs. cbn [bind].
  destruct (quiet_asMethod s g) as (h & eh & ->). cbn [bind].
  destruct (quiet_genFunc g (desc ++ "_DESCRIPTOR_") (desc ++ "_" ++ f_name m ++ "_") s true)
    as (body & eb & ->).
  reflexivity.
Qed.

Lemma completes_genStructM (g : objcGen) (obj : TypeName) :
  forallb sig_ok (tn_methods obj) = true -> completes (genStructM hp g obj) = true.
Proof.
  intros Hok. unfold genStructM.
  erewrite completes_after by reflexivity.
  erewrite completes_after by apply forM__Printf2.
  erewrite completes_after by apply forM__Printf.
  do 5 (erewrite completes_after by reflexivity).
  apply completes_bind_all.
  - apply completes_forM_. apply Forall_forall. intros f _. apply completes_genField.
  - intros _. apply completes_bind_all; [|reflexivity].
    apply completes_forM_. apply Forall_forall. intros m Hm.
    apply completes_genMethod. rewrite forallb_forall in Hok. now apply Hok.
Qed.

Lemma completes_genFuncM (g : objcGen) (f : Func) : completes (genFuncM hp g f) = true.
Proof.
  unfold genFuncM. destruct (quiet_funcSummary g f) as ([s|] & e & ->); [|reflexivity].
  cbn [bind].
  destruct (quiet_asFunc s g) as (h & eh & ->). cbn [bind].
  destruct (quiet_genFunc g "_DESCRIPTOR_" ("_CALL_" ++ s_name s ++ "_") s false)
    as (body & eb & ->).
  reflexivity.
Qed.

Lemma completes_genM_rest (g : objcGen) :
  methods_ok g = true -> completes (genM_rest hp g) = true.
Proof.
  unfold methods_ok, genM_rest. intros Hok. rewrite forallb_forall in Hok.
  apply completes_bind_all.
  - apply completes_forM_. apply Forall_forall. intros obj Hobj.
    apply completes_bind_all; [|reflexivity].
    specialize (Hok obj Hobj).
    destruct (tn_underlying obj); try reflexivity.
    simpl in Hok. now apply completes_genStructM.
  - intros _. apply completes_forM_. apply Forall_forall. intros f _.
    apply completes_bind_all; [apply completes_genFuncM | reflexivity].
Qed.

Lemma err_r_gen (g : objcGen) :
  err (r_gen (genM hp g)) = (err g ++ err_of (genM_rest hp (init g)))%list.
Proof.
  assert (He : err_of (genM_body hp (init g)) = err_of (genM_rest hp (init g))).
  { unfold genM_body.
    erewrite err_of_after by apply forM__Printf_id.
    erewrite err_of_after by reflexivity.
    erewrite err_of_after by reflexivity.
    erewrite err_of_after by apply forM__Printf.
    erewrite err_of_after by reflexivity.
    reflexivity. }
  rewrite <- He. unfold genM. now destruct (genM_body hp (init g)).
Qed.

Lemma genM_returned (g g' : objcGen) (out : list item) (e : option ErrorList) :
  genM hp g = Returned g' out e ->
  (e <> None <-> err g' <> []) /\ (forall l, e = Some l -> l = err g').
Proof.
  unfold genM. destruct (genM_body hp (init g)) as [a errs o | errs o]; [|discriminate].
  intros H. injection H as <- _ <-. cbn [with_err err].
  destruct (err g ++ errs)%list as [|d l]; simpl.
  - split; [split; intros H; now elim H | discriminate].
  - split; [split; discriminate|]. intros l0 H. now injection H.
Qed.

(** What the two loops of [genM] leave when they complete. *)
Lemma genM_rest_funcs (g : objcGen) (f : Func) :
  completes (genM_rest hp g) = true -> In f (funcs g) ->
  incl (out_of (genFuncM hp g f)) (out_of (genM_rest hp g)) /\
  incl (err_of (genFuncM hp g f)) (err_of (genM_rest hp g)).
Proof.
  unfold genM_rest. intros Hc Hf.
  rewrite completes_bind in Hc. rewrite out_of_bind, err_of_bind.
  match type of Hc with
  | match ?m with _ => _ end = true => destruct m as [a e o | e o]; [|discriminate]
  end.
  pose proof (out_forM__complete _ _ Hc) as [Ho _].
  pose proof (err_forM__complete _ _ Hc) as He.
  rewrite Ho, He. split.
  - apply incl_appr. intros x Hx. apply in_flat_map. exists f. split; [exact Hf|].
    rewrite out_of_bind. apply in_or_app. now left.
  - apply incl_appr. intros x Hx. apply in_flat_map. exists f. split; [exact Hf|].
    rewrite err_of_bind. apply in_or_app. now left.
Qed.

(** C8.  On each unsupported shape (a slice whose element is not a byte, a
    map, a pointer to a type that is not named, a named type of another
    package, and the others) the type mapper records at least one
    diagnostic, all of the unsupported-type kind, and answers the
    placeholder type; it never stops generation.  A run of [genM] that
    returns, returns failure exactly when the collected list is not empty,
    and then it returns that list.  When the methods of the exported structs
    have accepted signatures the run returns; it prints the stub of every
    function with an accepted signature, and an unsupported parameter type
    of such a function makes it return failure with the diagnostics of that
    type in the list. *)
Theorem unsupported_types_are_collected (g : objcGen) (t : Type_) :
  (unsupported (init g) t ->
     fst (objcType (init g) t) = "TODO" /\ snd (objcType (init g) t) <> []) /\
  Forall (fun d => classify d = UnsupportedType) (snd (objcType (init g) t)) /\
  (forall g' out e, genM hp g = Returned g' out e ->
     (e <> None <-> err g' <> []) /\ (forall l, e = Some l -> l = err g')) /\
  (methods_ok (init g) = true ->
     returns (genM hp g) = true /\
     forall f, In f (funcs (init g)) -> sig_ok f = true ->
       (exists h body,
          In (IFunc h body) (r_out (genM hp g)) /\
          In (SSend "_DESCRIPTOR_" ("_CALL_" ++ f_name f ++ "_")) body) /\
       (forall p, In p (f_params f) -> v_type p = t -> unsupported (init g) t ->
          returned_error (genM hp g) <> None /\
          incl (snd (objcType (init g) t)) (err (r_gen (genM hp g))))).
Proof.
  split; [apply objcType_unsupported|].
  split; [apply objcType_in_classified|].
  split; [apply genM_returned|].
  intros Hok. pose proof (completes_genM_rest _ Hok) as Hc.
  assert (Hr : returns (genM hp g) = true)
    by now rewrite returns_genM, completes_genM_body.
  split; [exact Hr|].
  intros f Hf Hs.
  destruct (genFuncM_sig_ok (init g) f Hs) as (h & body & errs & Hg & Hsend & Herr).
  destruct (genM_rest_funcs (init g) f Hc Hf) as [Hio Hie].
  rewrite Hg in Hio, Hie. cbn [out_of err_of] in Hio, Hie.
  split.
  - exists h, body. split; [|exact Hsend].
    rewrite r_out_genM, genM_body_out.
    apply in_or_app. right. apply in_or_app. right. apply in_or_app. right.
    right. apply Hio. now left.
  - intros p Hp Ht Hu. subst t.
    assert (Hin : incl (snd (objcType (init g) (v_type p))) (err (r_gen (genM hp g)))).
    { rewrite err_r_gen. apply incl_appr.
      eapply incl_tran; [apply Herr; exact Hp | exact Hie]. }
    split; [|exact Hin].
    destruct (genM hp g) as [g' out e | g' out] eqn:Eg; [|discriminate].
    cbn [returned_error r_gen] in *.
    apply (genM_returned g g' out e Eg).
    destruct (objcType_unsupported g (v_type p) Hu) as [_ Hne].
    intros Hnil. rewrite Hnil in Hin.
    destruct (snd (objcType (init g) (v_type p))) as [|d l]; [now apply Hne|].
    apply (Hin d). now left.
Qed.


(** ** Running a stub: the head *)

Lemma exec_list_app (send : string -> string -> buffer -> buffer) (a b : list stmt)
    (m : machine) :
  exec_list send (a ++ b) m =
  match exec_list send a m with
  | Next m' => exec_list send b m'
  | other => other
  end.
Proof.
  revert m. induction a as [|x a IH]; intros m; simpl; [reflexivity|].
  destruct (exec send x m); try reflexivity. apply IH.
Qed.

Lemma write_param_arg (p : paramInfo) :
  write_param hp p = SWrite (objcGen_seqType hp (typ p)) (arg_expr hp p).
Proof.
  unfold write_param, arg_expr. now destruct (objcGen_seqType hp (typ p) =? "Ref").
Qed.

(** An argument expression reads the variables and the wrappers only, and
    leaves the machine as it is. *)
Lemma arg_eval (p : paramInfo) (m : machine) (v : value) :
  arg_value (arg_expr hp p) m = Some v -> eval_expr (arg_expr hp p) m = Ok (v, m).
Proof.
  unfold arg_value, arg_expr.
  destruct (objcGen_seqType hp (typ p) =? "Ref"); simpl;
    destruct (lookup (name p) m) as [[ | | | | | | o | ] | f]; simpl; try discriminate;
    try (intros H; injection H as ->; reflexivity).
  destruct (assocN o (wrappers m)); intros H; injection H as ->; reflexivity.
Qed.

Lemma self_eval (m : machine) (v : value) :
  arg_value (ERefOf "self") m = Some v -> eval_expr (ERefOf "self") m = Ok (v, m).
Proof.
  unfold arg_value. simpl.
  destruct (lookup "self" m) as [[ | | | | | | o | ] | f]; simpl; try discriminate;
    try (intros H; injection H as ->; reflexivity).
  destruct (assocN o (wrappers m)); intros H; injection H as ->; reflexivity.
Qed.

Lemma arg_value_frame (e : expr) (m m' : machine) :
  match e with EVar _ | ERefOf _ => True | _ => False end ->
  vars m' = vars m -> wrappers m' = wrappers m ->
  arg_value e m' = arg_value e m.
Proof.
  destruct e; try contradiction; intros _ Hv Hw; unfold arg_value; simpl;
    unfold lookup; rewrite Hv; destruct (assoc x (vars m)) as [[ | | | | | | o | ]|];
    try reflexivity.
  rewrite Hw. now destruct (assocN o (wrappers m)).
Qed.

Lemma arg_expr_is_arg (p : paramInfo) :
  match arg_expr hp p with EVar _ | ERefOf _ => True | _ => False end.
Proof. unfold arg_expr. now destruct (objcGen_seqType hp (typ p) =? "Ref"). Qed.

Lemma exec_writes (send : string -> string -> buffer -> buffer) (l : list paramInfo)
    (rest : list stmt) (m : machine) (b : buffer) :
  forallb (fun p => has_value (arg_value (arg_expr hp p) m)) l = true ->
  exec_list send (map (write_param hp) l ++ rest) (set_in m (Some b))
  = exec_list send rest
      (set_in m (Some (b ++ map (fun p => (objcGen_seqType hp (typ p),
                                           value_or_null (arg_value (arg_expr hp p) m))) l)%list)).
Proof.
  revert b. induction l as [|p l IH]; intros b Hok.
  - simpl. now rewrite app_nil_r.
  - simpl in Hok. apply andb_true_iff in Hok as [Hp Hl].
    cbn [map app exec_list]. rewrite write_param_arg. cbn [exec].
    destruct (arg_value (arg_expr hp p) m) as [v|] eqn:Ev; [|discriminate].
    assert (Ev' : arg_value (arg_expr hp p) (set_in m (Some b)) = Some v)
      by (rewrite (arg_value_frame _ m); [exact Ev | apply arg_expr_is_arg | reflexivity
                                          | reflexivity]).
    rewrite (arg_eval _ _ _ Ev'). cbn [in_buf set_in].
    change (set_in (set_in m (Some b)) ?x) with (set_in m x).
    rewrite (IH _ Hl). cbn [value_or_null]. now rewrite <- app_assoc.
Qed.

(** The head of a stub declares the two buffers, writes the receiver and
    the arguments in order, and sends: the machine then holds the request in
    [in_] and the response in [out_], and nothing else has changed. *)
Lemma exec_head (send : string -> string -> buffer -> buffer) (d c : string)
    (s : funcSummary) (isMethod : bool) (rest : list stmt) (m : machine) :
  callable hp s isMethod m = true ->
  exec_list send (stub_head hp d c s isMethod ++ rest) m
  = exec_list send rest (after_send hp send d c s isMethod m).
Proof.
  unfold callable, stub_head, after_send, request. intros Hc.
  apply andb_true_iff in Hc as [Hself Hargs].
  rewrite <- !app_assoc.
  cbn [app exec_list exec String.eqb Ascii.eqb Bool.eqb]. simpl (_ =? _).
  change (set_out (set_in m (Some [])) (Some [])) with (set_in (set_out m (Some [])) (Some [])).
  assert (Hvals : forall p, arg_value (arg_expr hp p) (set_out m (Some []))
                            = arg_value (arg_expr hp p) m).
  { intros p. apply arg_value_frame; [apply arg_expr_is_arg | reflexivity | reflexivity]. }
  assert (Hargs' : forallb (fun p => has_value (arg_value (arg_expr hp p) (set_out m (Some []))))
                     (s_params s) = true).
  { rewrite forallb_forall in *. intros p Hp. rewrite Hvals. now apply Hargs. }
  destruct isMethod.
  - destruct (arg_value (ERefOf "self") m) as [v|] eqn:Ev; [|discriminate].
    assert (Ev' : arg_value (ERefOf "self") (set_in (set_out m (Some [])) (Some [])) = Some v).
    { rewrite <- Ev. apply arg_value_frame; [exact I | reflexivity | reflexivity]. }
    cbn [app exec_list exec].
    rewrite (self_eval _ _ Ev'). cbn [in_buf set_in app].
    change (set_in (set_in ?a ?b) ?x) with (set_in a x).
    rewrite (exec_writes send _ _ _ _ Hargs').
    cbn [exec_list exec in_buf out_buf set_in set_out value_or_null app].
    f_equal. unfold set_out, set_in. simpl. f_equal; f_equal.
    + f_equal. apply map_ext. intros p. now rewrite Hvals.
    + f_equal. f_equal. apply map_ext. intros p. now rewrite Hvals.
  - cbn [app].
    rewrite (exec_writes send _ _ _ _ Hargs').
    cbn [exec_list exec in_buf out_buf set_in set_out value_or_null app].
    f_equal. unfold set_out, set_in. simpl. f_equal; f_equal.
    + apply map_ext. intros p. now rewrite Hvals.
    + f_equal. apply map_ext. intros p. now rewrite Hvals.
Qed.


(** ** Names of locals *)

Lemma neq_prefixed (c : ascii) (n : string) : n <> String c n.
Proof.
  intros H. apply (f_equal String.length) in H. simpl in H. lia.
Qed.

Lemma neq_suffixed (n t : string) : t <> "" -> n <> n ++ t.
Proof.
  intros Ht H. apply (f_equal String.length) in H. rewrite length_append in H.
  destruct t; [now apply Ht | simpl in H; lia].
Qed.

Lemma error_neq_val (n : string) : "error" <> n ++ "_val".
Proof.
  intros H.
  assert (Hl : String.length n = 1)
    by (apply (f_equal String.length) in H; rewrite length_append in H; simpl in H; lia).
  destruct n as [|a [|b n]]; simpl in *; try discriminate.
Qed.

Lemma error_neq_ref (n : string) : "error" <> n ++ "_ref".
Proof.
  intros H.
  assert (Hl : String.length n = 1)
    by (apply (f_equal String.length) in H; rewrite length_append in H; simpl in H; lia).
  destruct n as [|a [|b n]]; simpl in *; try discriminate.
Qed.

Lemma error_neq_local (p : paramInfo) : "error" <> local_name hp p.
Proof.
  unfold local_name. destruct (isErrorType (typ p)); [simpl; discriminate|].
  destruct (objcGen_seqType hp (typ p) =? "Ref");
    [apply error_neq_ref | apply error_neq_val].
Qed.

Lemma name_neq_local (p : paramInfo) : name p <> local_name hp p.
Proof.
  unfold local_name. destruct (isErrorType (typ p)); [apply neq_prefixed|].
  destruct (objcGen_seqType hp (typ p) =? "Ref"); apply neq_suffixed; discriminate.
Qed.

Lemma assoc_cons_neq {B : Type} (x y : string) (v : B) (l : list (string * B)) :
  x <> y -> assoc x ((y, v) :: l) = assoc x l.
Proof.
  intros H. simpl. apply String.eqb_neq in H. now rewrite H.
Qed.

Lemma assocN_head {B : Type} (x : nat) (v : B) (l : list (nat * B)) :
  assocN x ((x, v) :: l) = Some v.
Proof. simpl. now rewrite Nat.eqb_refl. Qed.

(** ** Running a stub: decoding one out-result *)

Ltac run :=
  unfold lookup, load;
  cbn [exec_list exec eval_expr eval_cond eval_lval load lookup msg_length is_null negb
       vars mem in_buf out_buf details attached wrappers next_obj freed
       set_vars set_mem set_in set_out set_details alloc_wrapper log_free fst snd].

Ltac crunch Hnl Hptr :=
  repeat progress
    (run;
     rewrite ?assoc_head, ?(assoc_cons_neq _ _ _ _ Hnl), ?Hptr, ?assocN_head,
       ?String.eqb_refl, ?Nat.eqb_refl).

(** The block that [genFunc] prints for one out-result reads exactly one
    item of the response into a new local; it stores through the
    out-parameter only when the pointer is not NULL, and with a NULL pointer
    it changes neither the cells nor the wrappers. *)
Lemma exec_read_out (send : string -> string -> buffer -> buffer) (g : objcGen)
    (p : paramInfo) (blk : list stmt) (e : ErrorList) (o : list item)
    (m : machine) (it : string * value) (rest : buffer) (ptr : value) :
  read_out hp g p = Done blk e o ->
  out_buf m = Some (it :: rest) -> fits hp p it = true ->
  assoc (name p) (vars m) = Some ptr -> is_pointer ptr = true ->
  exists m',
    exec_list send blk m = Next m' /\
    vars m' = (local_name hp p, snd it) :: vars m /\
    out_buf m' = Some rest /\ in_buf m' = in_buf m /\ freed m' = freed m /\
    attached m' = attached m /\
    (ptr = VNull ->
       mem m' = mem m /\ wrappers m' = wrappers m /\ next_obj m' = next_obj m) /\
    (forall l s, ptr = VPtr l -> isErrorType (typ p) = true -> snd it = VStr s ->
       s <> "" -> mem m' = (l, VErr s) :: mem m) /\
    (forall l h, ptr = VPtr l -> isErrorType (typ p) = false ->
       objcGen_seqType hp (typ p) = "Ref" -> snd it = VRef h ->
       match assocZ h (attached m) with
       | Some w =>
           assocN l (mem m') = Some (VObj w) /\
           wrappers m' = wrappers m /\ next_obj m' = next_obj m
       | None =>
           assocN l (mem m') = Some (VObj (next_obj m)) /\
           wrappers m' = (next_obj m, h) :: wrappers m /\
           next_obj m' = S (next_obj m)
       end).
Proof.
  intros Hb Ho Hfit Hptr Hip.
  destruct it as [tag v]. unfold fits in Hfit. cbn [fst snd] in *.
  apply andb_true_iff in Hfit as [Htag Hval]. apply String.eqb_eq in Htag. subst tag.
  pose proof (name_neq_local p) as Hnl.
  unfold read_out in Hb. unfold result_tag, local_name in *.
  destruct (isErrorType (typ p)) eqn:Eerr.
  - (* an error: the message string *)
    injection Hb as <- _ _.
    change ("_" ++ name p) with (String "_" (name p)) in *.
    destruct v as [ | | | | s | | | ]; try discriminate.
    run. rewrite Ho. cbn [String.eqb Ascii.eqb Bool.eqb andb].
    destruct s as [|ch s']; [|destruct ptr as [ | l | | | | | | ]; try discriminate];
      crunch Hnl Hptr;
      (eexists; split; [reflexivity|]);
      run; repeat split; try reflexivity; intros; try discriminate; congruence.
  - destruct (objcGen_seqType hp (typ p) =? "Ref") eqn:Eref; cbn [negb] in Hb.
    + (* an object reference *)
      apply String.eqb_eq in Eref.
      cbn [bind logged pure] in Hb. injection Hb as <- _ _.
      destruct v as [ | | | | | h | | ]; try discriminate.
      run. rewrite Ho, Eref. cbn [String.eqb Ascii.eqb Bool.eqb andb].
      destruct ptr as [ | l | | | | | | ]; try discriminate.
      * crunch Hnl Hptr.
        eexists; split; [reflexivity|].
        run; repeat split; try reflexivity; intros; discriminate.
      * destruct (assocZ h (attached m)) as [w|] eqn:Ea;
          crunch Hnl Hptr; rewrite ?Ea; crunch Hnl Hptr;
          (eexists; split; [reflexivity|]);
          run; repeat split; try reflexivity; intros; try discriminate;
          match goal with
          | H1 : VPtr _ = VPtr _, H2 : VRef _ = VRef _ |- _ =>
              injection H1 as <-; injection H2 as <-
          end;
          rewrite Ea; rewrite assocN_head; repeat split; reflexivity.
    + (* a plain value *)
      cbn [bind logged pure] in Hb. injection Hb as <- _ _.
      run. rewrite Ho, String.eqb_refl.
      destruct ptr as [ | l | | | | | | ]; try discriminate;
        crunch Hnl Hptr;
        (eexists; split; [reflexivity|]);
        run; repeat split; try reflexivity; intros; try discriminate;
        match goal with
        | H : objcGen_seqType _ _ = "Ref" |- _ => rewrite H in Eref; discriminate
        end.
Qed.


(** ** Stubs with out-parameters (C7, C10) *)

Lemma forM_inv {A B : Type} (l : list A) (f : A -> outcome B) ys e o :
  forM l f = Done ys e o ->
  Forall2 (fun x y => exists e' o', f x = Done y e' o') l ys.
Proof.
  revert ys e o. induction l as [|x l IH]; intros ys e o H; simpl in H.
  - injection H as <- _ _. constructor.
  - destruct (f x) as [y e1 o1 | e1 o1] eqn:Ex; [|discriminate].
    simpl in H.
    destruct (forM l f) as [ys' e2 o2 | e2 o2] eqn:El; [|discriminate].
    simpl in H. injection H as <- _ _.
    constructor; [now exists e1, o1 | eapply IH; reflexivity].
Qed.

Lemma genFunc_out_body (g : objcGen) (d c : string) (s : funcSummary) (b : bool)
    (body : list stmt) (e : ErrorList) (o : list item) :
  returnsVal s = false ->
  genFunc hp g d c s b = Done body e o ->
  exists blocks,
    Forall2 (fun p blk => exists e' o', read_out hp g p = Done blk e' o')
            (s_retParams s) blocks /\
    body = (stub_head hp d c s b ++ concat blocks
              ++ [SFree "in_"; SFree "out_"] ++ return_stmt s)%list.
Proof.
  unfold genFunc. intros -> H.
  destruct (forM (s_retParams s) (read_out hp g)) as [blocks e1 o1 | e1 o1] eqn:Ef;
    [|discriminate].
  simpl in H. injection H as <- _ _.
  exists blocks. split; [eapply forM_inv; exact Ef | reflexivity].
Qed.

(** The two shapes of summary under the boolean-success convention. *)
Lemma funcSummary_out_shape (g : objcGen) (obj : Func) (s : funcSummary) e o :
  objcGen_funcSummary hp g obj = Done (Some s) e o ->
  returnsVal s = false -> s_retParams s <> [] ->
  (exists T, isErrorType T = true /\ s_retParams s = [mkParam T "error"]) \/
  (exists T0 n0 T1, isErrorType T1 = true /\
                    s_retParams s = [mkParam T0 n0; mkParam T1 "error"]).
Proof.
  unfold objcGen_funcSummary.
  destruct (f_results obj) as [|p [|r1 [|r2 rs]]].
  - intros H. injection H as <- _ _. simpl. intros _ Hn. now elim Hn.
  - destruct (isErrorType (v_type p)) eqn:Ep.
    + intros H. injection H as <- _ _. simpl. intros _ _. left. now exists (v_type p).
    + simpl. intros H. injection H as <- _ _. unfold returnsVal. simpl.
      rewrite Ep. discriminate.
  - destruct (isErrorType (v_type r1)) eqn:E1; simpl.
    + intros H. injection H as <- _ _. simpl. intros _ _. right.
      now exists (v_type p), (result_name hp p), (v_type r1).
    + discriminate.
  - discriminate.
Qed.

Lemma after_send_frame (send : string -> string -> buffer -> buffer) (d c : string)
    (s : funcSummary) (b : bool) (m : machine) :
  vars (after_send hp send d c s b m) = vars m /\
  mem (after_send hp send d c s b m) = mem m /\
  in_buf (after_send hp send d c s b m) = Some (request hp s b m) /\
  out_buf (after_send hp send d c s b m) = Some (send d c (request hp s b m)) /\
  attached (after_send hp send d c s b m) = attached m /\
  wrappers (after_send hp send d c s b m) = wrappers m /\
  next_obj (after_send hp send d c s b m) = next_obj m /\
  freed (after_send hp send d c s b m) = freed m.
Proof. repeat split. Qed.

(** The end of a stub under the boolean-success convention: both buffers
    are freed and the flag is the emptiness of the message. *)
Lemma exec_tail (send : string -> string -> buffer -> buffer) (m : machine)
    (req : buffer) (msg : string) (vs : list (string * value)) :
  vars m = ("_error", VStr msg) :: vs ->
  in_buf m = Some req -> out_buf m = Some [] ->
  exists m',
    exec_list send [SFree "in_"; SFree "out_"; SReturn (ELenIsZero "_error")] m
    = Ret (VBool (msg =? "")) m' /\
    freed m' = (freed m ++ [("in_", req); ("out_", [])])%list /\
    mem m' = mem m /\ wrappers m' = wrappers m /\ next_obj m' = next_obj m /\
    attached m' = attached m.
Proof.
  intros Hv Hi Ho. run. cbn [String.eqb Ascii.eqb Bool.eqb andb].
  rewrite Hi. run. rewrite Ho. run. rewrite Hv.
  cbn [assoc String.eqb Ascii.eqb Bool.eqb andb]. run.
  eexists. split.
  - destruct msg; reflexivity.
  - run. rewrite <- app_assoc. repeat split; reflexivity.
Qed.

(** A stub under the boolean-success convention, run on a well-formed
    response: it returns the flag "the message is empty"; it frees both
    buffers, the response being consumed in full; with NULL out-parameters
    it stores nothing; with an error pointer that is not NULL and a message
    that is not empty, the cell holds the error built from the message. *)
Lemma exec_out_stub (send : string -> string -> buffer -> buffer) (g : objcGen)
    (obj : Func) (s : funcSummary) (e : ErrorList) (o : list item)
    (d c : string) (isMethod : bool) (body : list stmt) (e' : ErrorList)
    (o' : list item) (m : machine) :
  objcGen_funcSummary hp g obj = Done (Some s) e o ->
  returnsVal s = false -> s_retParams s <> [] ->
  genFunc hp g d c s isMethod = Done body e' o' ->
  callable hp s isMethod m = true ->
  Forall (fun p => exists ptr, assoc (name p) (vars m) = Some ptr /\ is_pointer ptr = true)
         (s_retParams s) ->
  response_ok hp (s_retParams s) (send d c (request hp s isMethod m)) = true ->
  exists msg m',
    last_message (send d c (request hp s isMethod m)) = Some msg /\
    exec_list send body m = Ret (VBool (msg =? "")) m' /\
    freed m' = (freed m ++ [("in_", request hp s isMethod m); ("out_", [])])%list /\
    attached m' = attached m /\
    (Forall (fun p => assoc (name p) (vars m) = Some VNull) (s_retParams s) ->
       mem m' = mem m /\ wrappers m' = wrappers m /\ next_obj m' = next_obj m) /\
    (forall l, assoc "error" (vars m) = Some (VPtr l) -> msg <> "" ->
       assocN l (mem m') = Some (VErr msg)).
Proof.
  intros Hs Hrv Hne Hg Hcall Hptrs Hresp.
  destruct (genFunc_out_body g d c s isMethod body e' o' Hrv Hg) as (blocks & Hblocks & ->).
  rewrite exec_head by exact Hcall.
  destruct (after_send_frame send d c s isMethod m)
    as (Hv1 & Hm1 & Hi1 & Ho1 & Ha1 & Hw1 & Hn1 & Hf1).
  remember (send d c (request hp s isMethod m)) as resp eqn:Eresp0. clear Eresp0.
  remember (after_send hp send d c s isMethod m) as m1 eqn:Em1. clear Em1.
  remember (request hp s isMethod m) as req eqn:Ereq. clear Ereq.
  destruct (funcSummary_out_shape g obj s e o Hs Hrv Hne)
    as [(T & HT & Hps) | (T0 & n0 & T1 & HT & Hps)];
    unfold return_stmt; rewrite Hps in *; cbn [map last typ name]; rewrite HT.
  - (* the error alone *)
    inversion Hblocks as [|p blk ps bs (eb & ob & Hb) Hrest]; subst.
    inversion Hrest; subst. cbn [concat app]. rewrite app_nil_r.
    destruct resp as [|it [|it' r]]; cbn [response_ok] in Hresp;
      try (rewrite andb_false_r in Hresp); try discriminate.
    rewrite andb_true_r in Hresp.
    inversion Hptrs as [|? ? (ptr & Hptr & Hip) _]; subst. cbn [name] in Hptr.
    destruct (exec_read_out send g _ _ _ _ m1 it [] ptr Hb Ho1 Hresp
                ltac:(rewrite Hv1; exact Hptr) Hip)
      as (m2 & Hx & Hv2 & Ho2 & Hi2 & Hf2 & Ha2 & Hnull & Herr & _).
    rewrite exec_list_app, Hx.
    assert (Hit : exists msg, snd it = VStr msg).
    { unfold fits in Hresp. cbn [typ] in Hresp. rewrite HT in Hresp.
      apply andb_true_iff in Hresp as [_ Hresp].
      destruct (snd it); try discriminate. now eexists. }
    destruct Hit as (msg & Hmsg).
    unfold local_name in Hv2. cbn [typ name] in Hv2. rewrite HT, Hmsg in Hv2.
    destruct (exec_tail send m2 req msg _ Hv2 ltac:(now rewrite Hi2) Ho2)
      as (m3 & Hx3 & Hf3 & Hm3 & Hw3 & Hn3 & Ha3).
    exists msg, m3. split.
    { unfold last_message. cbn [map last]. destruct it as [tg v]. cbn [snd] in Hmsg.
      now subst v. }
    split; [exact Hx3|].
    split; [now rewrite Hf3, Hf2, Hf1|].
    split; [now rewrite Ha3, Ha2, Ha1|].
    split.
    + intros Hall. inversion Hall as [|? ? Hp0 _]; subst. cbn [name] in Hp0.
      assert (ptr = VNull) by congruence. subst ptr.
      destruct (Hnull eq_refl) as (Hm2 & Hw2 & Hn2).
      now rewrite Hm3, Hw3, Hn3, Hm2, Hw2, Hn2, Hm1, Hw1, Hn1.
    + intros l Hl Hnz. assert (ptr = VPtr l) by congruence. subst ptr.
      rewrite Hm3, (Herr l msg eq_refl HT Hmsg Hnz). apply assocN_head.
  - (* a value, then the error *)
    inversion Hblocks as [|p0 blk0 ps bs (eb0 & ob0 & Hb0) Hrest]; subst.
    inversion Hrest as [|p1 blk1 ps' bs' (eb1 & ob1 & Hb1) Hrest']; subst.
    inversion Hrest'; subst. cbn [concat app]. rewrite app_nil_r.
    destruct resp as [|it0 [|it1 [|it2 r]]]; try discriminate;
      cbn [response_ok] in Hresp;
      try (rewrite !andb_false_r in Hresp; discriminate).
    rewrite andb_true_r in Hresp. apply andb_true_iff in Hresp as [Hfit0 Hfit1].
    inversion Hptrs as [|? ? (ptr0 & Hptr0 & Hip0) Hptrs']; subst.
    inversion Hptrs' as [|? ? (ptr1 & Hptr1 & Hip1) _]; subst.
    cbn [name] in Hptr0, Hptr1.
    destruct (exec_read_out send g _ _ _ _ m1 it0 [it1] ptr0 Hb0 Ho1 Hfit0
                ltac:(rewrite Hv1; exact Hptr0) Hip0)
      as (m2 & Hx2 & Hv2 & Ho2 & Hi2 & Hf2 & Ha2 & Hnull2 & _ & _).
    assert (Hptr1' : assoc (name (mkParam T1 "error")) (vars m2) = Some ptr1).
    { rewrite Hv2. cbn [name]. rewrite assoc_cons_neq by apply error_neq_local.
      now rewrite Hv1. }
    destruct (exec_read_out send g _ _ _ _ m2 it1 [] ptr1 Hb1 Ho2 Hfit1 Hptr1' Hip1)
      as (m3 & Hx3 & Hv3 & Ho3 & Hi3 & Hf3 & Ha3 & Hnull3 & Herr3 & _).
    rewrite <- app_assoc, exec_list_app, Hx2, exec_list_app, Hx3.
    assert (Hit : exists msg, snd it1 = VStr msg).
    { unfold fits in Hfit1. cbn [typ] in Hfit1. rewrite HT in Hfit1.
      apply andb_true_iff in Hfit1 as [_ Hfit1].
      destruct (snd it1); try discriminate. now eexists. }
    destruct Hit as (msg & Hmsg).
    unfold local_name in Hv3 at 1. cbn [typ name] in Hv3. rewrite HT, Hmsg in Hv3.
    destruct (exec_tail send m3 req msg _ Hv3 ltac:(now rewrite Hi3, Hi2) Ho3)
      as (m4 & Hx4 & Hf4 & Hm4 & Hw4 & Hn4 & Ha4).
    exists msg, m4. split.
    { unfold last_message. cbn [map last]. destruct it1 as [tg v]. cbn [snd] in Hmsg.
      now subst v. }
    split; [exact Hx4|].
    split; [now rewrite Hf4, Hf3, Hf2, Hf1|].
    split; [now rewrite Ha4, Ha3, Ha2, Ha1|].
    split.
    + intros Hall. inversion Hall as [|? ? Hp0 Hall']; subst.
      inversion Hall' as [|? ? Hp1 _]; subst. cbn [name] in Hp0, Hp1.
      assert (ptr0 = VNull) by congruence. assert (ptr1 = VNull) by congruence.
      subst ptr0 ptr1.
      destruct (Hnull2 eq_refl) as (Hm2 & Hw2 & Hn2).
      destruct (Hnull3 eq_refl) as (Hm3 & Hw3 & Hn3).
      now rewrite Hm4, Hw4, Hn4, Hm3, Hw3, Hn3, Hm2, Hw2, Hn2, Hm1, Hw1, Hn1.
    + intros l Hl Hnz. assert (ptr1 = VPtr l) by congruence. subst ptr1.
      rewrite Hm4, (Herr3 l msg eq_refl HT Hmsg Hnz). apply assocN_head.
Qed.


(** ** Every store is guarded *)

Lemma forallb_concat {A : Type} (f : A -> bool) (ls : list (list A)) :
  Forall (fun l => forallb f l = true) ls -> forallb f (concat ls) = true.
Proof.
  induction 1 as [|l ls Hl _ IH]; simpl; [reflexivity|].
  rewrite forallb_app, Hl. exact IH.
Qed.

Lemma tested_head (x : string) (l : list string) : tested (x :: l) x = true.
Proof. unfold tested. simpl. now rewrite String.eqb_refl. Qed.

Lemma read_out_guarded (g : objcGen) (p : paramInfo) blk e o :
  read_out hp g p = Done blk e o -> forallb (guarded []) blk = true.
Proof.
  unfold read_out.
  destruct (isErrorType (typ p)); [|destruct (negb (objcGen_seqType hp (typ p) =? "Ref"))];
    cbn [bind logged pure]; intros H; injection H as <- _ _;
    cbn [forallb guarded]; rewrite ?tested_head; reflexivity.
Qed.

Lemma read_value_guarded (g : objcGen) (p : paramInfo) blk e o :
  read_value hp g p = Done blk e o -> forallb (guarded []) blk = true.
Proof.
  unfold read_value.
  destruct (negb (objcGen_seqType hp (typ p) =? "Ref"));
    cbn [bind logged pure]; intros H; injection H as <- _ _; reflexivity.
Qed.

(** In every stub body, each store through a pointer and each read through
    one stands inside an [if] that tests that pointer against NULL. *)
Lemma genFunc_guarded (g : objcGen) (d c : string) (s : funcSummary) (b : bool) body e o :
  genFunc hp g d c s b = Done body e o -> forallb (guarded []) body = true.
Proof.
  unfold genFunc. intros H.
  assert (Hmid : forallb (guarded [])
                   ((if b then [SWrite "Ref" (ERefOf "self")] else [])
                      ++ map (write_param hp) (s_params s) ++ [SSend d c]) = true).
  { rewrite !forallb_app.
    replace (forallb (guarded []) (if b then [SWrite "Ref" (ERefOf "self")] else []))
      with true by now destruct b.
    cbn [forallb guarded andb]. rewrite andb_true_r. apply forallb_forall. intros x Hx.
    apply in_map_iff in Hx as (p & <- & _). now rewrite write_param_arg. }
  assert (Hret : forallb (guarded []) (return_stmt s) = true).
  { unfold return_stmt. destruct (last (map Some (s_retParams s)) None) as [p|];
      [destruct (isErrorType (typ p))|]; reflexivity. }
  assert (Hall : forall reads, forallb (guarded []) reads = true ->
            forallb (guarded [])
              (([SBuf "in_"; SBuf "out_"]
                  ++ (if b then [SWrite "Ref" (ERefOf "self")] else [])
                  ++ map (write_param hp) (s_params s) ++ [SSend d c])
                 ++ reads ++ [SFree "in_"; SFree "out_"] ++ return_stmt s) = true).
  { intros reads Hr. rewrite !forallb_app. rewrite !forallb_app in Hmid. rewrite Hr, Hret.
    apply andb_true_iff in Hmid as [H1 H2]. apply andb_true_iff in H2 as [H2 _].
    rewrite H1, H2. reflexivity. }
  destruct (returnsVal s).
  - destruct (s_retParams s) as [|p ps].
    + cbn [bind pure] in H. injection H as <- _ _. now apply (Hall []).
    + destruct (read_value hp g p) as [blk e1 o1 | e1 o1] eqn:Ev; [|discriminate].
      cbn [bind pure] in H. injection H as <- _ _.
      apply Hall. eapply read_value_guarded. exact Ev.
  - destruct (forM (s_retParams s) (read_out hp g)) as [blocks e1 o1 | e1 o1] eqn:Ef;
      [|discriminate].
    cbn [bind pure] in H. injection H as <- _ _.
    apply Hall.
    apply forallb_concat. apply forM_inv in Ef.
    induction Ef as [|p blk ps bs (e2 & o2 & Hb) _ IH]; constructor; [|exact IH].
    eapply read_out_guarded. exact Hb.
Qed.

(** C10.  In the stub of a function under the boolean-success convention
    every store through an out-parameter pointer is guarded by a NULL test
    of that pointer.  Called with NULL for every out-parameter, on a
    well-formed response, the stub runs to its return without a fault, it
    stores nothing and allocates nothing, the reads consume the whole
    response (the out buffer is empty when it is freed), and both buffers
    are freed. *)
Theorem null_out_parameters_are_safe
    (send : string -> string -> buffer -> buffer) (g : objcGen) (obj : Func)
    (s : funcSummary) (e : ErrorList) (o : list item) (d c : string)
    (isMethod : bool) (body : list stmt) (e' : ErrorList) (o' : list item)
    (m : machine) :
  objcGen_funcSummary hp g obj = Done (Some s) e o ->
  returnsVal s = false -> s_retParams s <> [] ->
  genFunc hp g d c s isMethod = Done body e' o' ->
  callable hp s isMethod m = true ->
  Forall (fun p => assoc (name p) (vars m) = Some VNull) (s_retParams s) ->
  response_ok hp (s_retParams s) (send d c (request hp s isMethod m)) = true ->
  forallb (guarded []) body = true /\
  exists flag m',
    exec_list send body m = Ret (VBool flag) m' /\
    mem m' = mem m /\ wrappers m' = wrappers m /\ next_obj m' = next_obj m /\
    freed m' = (freed m ++ [("in_", request hp s isMethod m); ("out_", [])])%list.
Proof.
  intros Hs Hrv Hne Hg Hcall Hnull Hresp.
  split; [eapply genFunc_guarded; exact Hg|].
  assert (Hptrs : Forall (fun p => exists ptr, assoc (name p) (vars m) = Some ptr /\
                                               is_pointer ptr = true) (s_retParams s)).
  { eapply Forall_impl; [|exact Hnull]. intros p Hp. now exists VNull. }
  destruct (exec_out_stub send g obj s e o d c isMethod body e' o' m
              Hs Hrv Hne Hg Hcall Hptrs Hresp)
    as (msg & m' & _ & Hx & Hf & _ & Hn & _).
  destruct (Hn Hnull) as (Hm & Hw & Hnx).
  exists (msg =? ""), m'. repeat split; assumption.
Qed.

(** C7, as amended.  The dispatcher of [ReturnsError] writes the value
    result and then the failure message as a string: the empty string when
    the callee returned no error, and the text of the error otherwise
    (which is empty when that text is).  The stub of a function under the
    boolean-success convention reads the message as the last item of the
    response and returns success exactly when its length is zero; when the
    message is not empty and the error out-parameter is not NULL, the cell
    it points to receives the error built from the message. *)
Theorem failure_message_channel
    (impl : testpkg_impl) (b : bool) (out rest : buffer)
    (send : string -> string -> buffer -> buffer) (g : objcGen) (obj : Func)
    (s : funcSummary) (e : ErrorList) (o : list item) (d c : string)
    (isMethod : bool) (body : list stmt) (e' : ErrorList) (o' : list item)
    (m : machine) :
  proxy_ReturnsError impl out (("Bool", VBool b) :: rest)
  = Some ((out ++ [("UTF8", VStr (fst (testpkg_ReturnsError impl b)));
                   ("UTF8", VStr (error_text (snd (testpkg_ReturnsError impl b))))])%list,
          rest) /\
  (snd (testpkg_ReturnsError impl b) = None ->
     error_text (snd (testpkg_ReturnsError impl b)) = "") /\
  (objcGen_funcSummary hp g obj = Done (Some s) e o ->
   returnsVal s = false -> s_retParams s <> [] ->
   genFunc hp g d c s isMethod = Done body e' o' ->
   callable hp s isMethod m = true ->
   Forall (fun p => exists ptr, assoc (name p) (vars m) = Some ptr /\ is_pointer ptr = true)
          (s_retParams s) ->
   response_ok hp (s_retParams s) (send d c (request hp s isMethod m)) = true ->
   exists msg m',
     last_message (send d c (request hp s isMethod m)) = Some msg /\
     exec_list send body m = Ret (VBool (msg =? "")) m' /\
     (forall l, assoc "error" (vars m) = Some (VPtr l) -> msg <> "" ->
        assocN l (mem m') = Some (VErr msg))).
Proof.
  split; [|split].
  - unfold proxy_ReturnsError, WriteString.
    destruct (testpkg_ReturnsError impl b) as [res [t|]]; simpl;
      now rewrite <- app_assoc.
  - now intros ->.
  - intros Hs Hrv Hne Hg Hcall Hptrs Hresp.
    destruct (exec_out_stub send g obj s e o d c isMethod body e' o' m
                Hs Hrv Hne Hg Hcall Hptrs Hresp)
      as (msg & m' & Hl & Hx & _ & _ & _ & Herr).
    exists msg, m'. repeat split; assumption.
Qed.


(** ** Object results (C9) *)

Lemma genFunc_val_body (g : objcGen) (d c : string) (s : funcSummary) (b : bool)
    (body : list stmt) (e : ErrorList) (o : list item) :
  returnsVal s = true ->
  genFunc hp g d c s b = Done body e o ->
  exists p blk e1 o1,
    s_retParams s = [p] /\ isErrorType (typ p) = false /\
    read_value hp g p = Done blk e1 o1 /\
    body = (stub_head hp d c s b ++ blk
              ++ [SFree "in_"; SFree "out_"] ++ [SReturn (EVar (name p))])%list.
Proof.
  unfold genFunc, return_stmt. intros Hrv H. rewrite Hrv in H.
  unfold returnsVal in Hrv.
  destruct (s_retParams s) as [|p [|q ps]]; try discriminate.
  apply negb_true_iff in Hrv.
  destruct (read_value hp g p) as [blk e1 o1 | e1 o1] eqn:Ev; [|discriminate].
  cbn [bind pure] in H. injection H as <- _ _.
  exists p, blk, e1, o1. cbn [map last]. rewrite Hrv.
  repeat split; try reflexivity; assumption.
Qed.

(** C9, as amended.  A stub that decodes an object result reads the
    reference and first consults the object attached to it: when there is
    one it is the result, and nothing is allocated; only when there is none
    is a new wrapper allocated and initialised with the reference.  The
    stub attaches nothing to the reference, so a second decoding of the
    same handle, none being attached, allocates another wrapper.  The block
    that decodes an object into an out-parameter does the same into the
    cell the pointer designates. *)
Theorem object_results_get_or_allocate
    (send : string -> string -> buffer -> buffer) (g : objcGen) (s : funcSummary)
    (d c : string) (isMethod : bool) (body : list stmt) (e : ErrorList)
    (o : list item) (h : Z) :
  returnsVal s = true ->
  (forall p, In p (s_retParams s) -> objcGen_seqType hp (typ p) = "Ref") ->
  genFunc hp g d c s isMethod = Done body e o ->
  (forall m,
     callable hp s isMethod m = true ->
     send d c (request hp s isMethod m) = [("Ref", VRef h)] ->
     exists w m',
       exec_list send body m = Ret (VObj w) m' /\
       attached m' = attached m /\
       match assocZ h (attached m) with
       | Some a => w = a /\ wrappers m' = wrappers m /\ next_obj m' = next_obj m
       | None =>
           w = next_obj m /\ wrappers m' = (w, h) :: wrappers m /\
           next_obj m' = S (next_obj m)
       end) /\
  (forall m1 m2 w1 m1',
     callable hp s isMethod m1 = true ->
     send d c (request hp s isMethod m1) = [("Ref", VRef h)] ->
     assocZ h (attached m1) = None ->
     exec_list send body m1 = Ret (VObj w1) m1' ->
     callable hp s isMethod m2 = true ->
     send d c (request hp s isMethod m2) = [("Ref", VRef h)] ->
     attached m2 = attached m1' -> next_obj m2 = next_obj m1' ->
     exists w2 m2', exec_list send body m2 = Ret (VObj w2) m2' /\ w2 <> w1) /\
  (forall p blk e1 o1 m rest l,
     read_out hp g p = Done blk e1 o1 ->
     isErrorType (typ p) = false -> objcGen_seqType hp (typ p) = "Ref" ->
     out_buf m = Some (("Ref", VRef h) :: rest) ->
     assoc (name p) (vars m) = Some (VPtr l) ->
     exists m',
       exec_list send blk m = Next m' /\
       attached m' = attached m /\
       match assocZ h (attached m) with
       | Some a =>
           assocN l (mem m') = Some (VObj a) /\
           wrappers m' = wrappers m /\ next_obj m' = next_obj m
       | None =>
           assocN l (mem m') = Some (VObj (next_obj m)) /\
           wrappers m' = (next_obj m, h) :: wrappers m /\
           next_obj m' = S (next_obj m)
       end).
Proof.
  intros Hrv Href Hg.
  destruct (genFunc_val_body g d c s isMethod body e o Hrv Hg)
    as (p & blk & e1 & o1 & Hps & Hne & Hv & ->).
  assert (Hr : objcGen_seqType hp (typ p) = "Ref") by (apply Href; rewrite Hps; now left).
  unfold read_value in Hv. rewrite Hr in Hv.
  cbn [String.eqb Ascii.eqb Bool.eqb andb negb bind logged pure] in Hv.
  injection Hv as <- _ _.
  assert (Hrun : forall m,
     callable hp s isMethod m = true ->
     send d c (request hp s isMethod m) = [("Ref", VRef h)] ->
     exists w m',
       exec_list send
         (stub_head hp d c s isMethod
            ++ [SDecl "GoSeqRef*" (name p ++ "_ref") (ERead "Ref");
                SDecl (fst (objcType g (typ p))) (name p) (EObjOf (name p ++ "_ref"));
                SIf (CIsNull (LVar (name p)))
                  [SAssign (LVar (name p))
                     (EAllocInit (but_last (fst (objcType g (typ p)))) (name p ++ "_ref"))]]
            ++ [SFree "in_"; SFree "out_"] ++ [SReturn (EVar (name p))]) m
       = Ret (VObj w) m' /\
       attached m' = attached m /\
       match assocZ h (attached m) with
       | Some a => w = a /\ wrappers m' = wrappers m /\ next_obj m' = next_obj m
       | None =>
           w = next_obj m /\ wrappers m' = (w, h) :: wrappers m /\
           next_obj m' = S (next_obj m)
       end).
  { intros m Hcall Hresp.
    rewrite exec_head by exact Hcall.
    unfold after_send. rewrite Hresp.
    pose proof (neq_suffixed (name p) "_ref" ltac:(discriminate)) as Hnl.
    assert (Hnl' : name p ++ "_ref" <> name p) by (intros E; now apply Hnl).
    cbn [app]. run. cbn [String.eqb Ascii.eqb Bool.eqb andb]. run.
    rewrite assoc_head. run.
    destruct (assocZ h (attached m)) as [a|] eqn:Ea; run;
      rewrite ?assoc_head; run;
      rewrite ?(assoc_cons_neq _ _ _ _ Hnl'), ?assoc_head; run;
      cbn [String.eqb Ascii.eqb Bool.eqb andb]; run;
      rewrite ?assoc_head; run;
      eexists _, _; (split; [reflexivity|]); run; repeat split; reflexivity. }
  split; [exact Hrun|]. split.
  - intros m1 m2 w1 m1' Hc1 Hs1 Hnone Hx1 Hc2 Hs2 Ha2 Hn2.
    destruct (Hrun m1 Hc1 Hs1) as (w1' & m1'' & Hx1' & Ha1 & Hcase1).
    rewrite Hx1 in Hx1'. injection Hx1' as <- <-.
    rewrite Hnone in Hcase1. destruct Hcase1 as (Hw1 & _ & Hnext1).
    destruct (Hrun m2 Hc2 Hs2) as (w2 & m2' & Hx2 & _ & Hcase2).
    exists w2, m2'. split; [exact Hx2|].
    rewrite Ha2, Ha1, Hnone in Hcase2. destruct Hcase2 as (Hw2 & _).
    rewrite Hw2, Hn2, Hnext1, Hw1. lia.
  - intros q blk e2 o2 m rest l Hb Hq Hqr Hout Hptr.
    assert (Hfit : fits hp q ("Ref", VRef h) = true).
    { unfold fits, result_tag. cbn [fst snd]. rewrite Hq, Hqr. reflexivity. }
    destruct (exec_read_out send g q blk e2 o2 m ("Ref", VRef h) rest (VPtr l)
                Hb Hout Hfit Hptr eq_refl)
      as (m' & Hx & _ & _ & _ & _ & Ha & _ & _ & Hobj).
    exists m'. split; [exact Hx|]. split; [exact Ha|].
    exact (Hobj l h eq_refl Hq Hqr eq_refl).
Qed.

End Properties.

(** * Concrete runs *)

(** The printed text of two stubs of testpkg. *)
Example render_Sum_macro :
  In (0, "#define _CALL_Sum_ 9") (lines (r_out (genM go_helpers (newGen testpkg)))).
Proof. vm_compute. tauto. Qed.

Example render_NewS_stub :
  flat_map (render_stmt 1) (stub_body go_helpers (init (newGen testpkg)) testpkg_NewS_func)
  = [ (1, "GoSeq in_ = {};");
      (1, "GoSeq out_ = {};");
      (1, "go_seq_writeFloat64(&in_, x);");
      (1, "go_seq_writeFloat64(&in_, y);");
      (1, "go_seq_send(_DESCRIPTOR_, _CALL_NewS_, &in_, &out_);");
      (1, "GoSeqRef* ret0__ref = go_seq_readRef(&out_);");
      (1, "GoTestpkgS* ret0_ = ret0__ref.obj;");
      (1, "if (ret0_ == NULL) {");
      (2, "ret0_ = [[GoTestpkgS alloc] initWithRef:ret0__ref];");
      (1, "}");
      (1, "go_seq_free(&in_);");
      (1, "go_seq_free(&out_);");
      (1, "return ret0_;") ].
Proof. vm_compute. reflexivity. Qed.

Example render_ReturnsError_stub :
  flat_map (render_stmt 1)
    (stub_body go_helpers (init (newGen testpkg)) testpkg_ReturnsError_func)
  = [ (1, "GoSeq in_ = {};");
      (1, "GoSeq out_ = {};");
      (1, "go_seq_writeBool(&in_, b);");
      (1, "go_seq_send(_DESCRIPTOR_, _CALL_ReturnsError_, &in_, &out_);");
      (1, "NSString* ret0__val = go_seq_readUTF8(&out_);");
      (1, "if (ret0_ != NULL) {");
      (2, "*ret0_ = ret0__val;");
      (1, "}");
      (1, "NSString* _error = go_seq_readUTF8(&out_);");
      (1, "if ([_error length] != 0 && error != nil) {");
      (2, "NSMutableDictionary *details = [NSMutableDictionary dictionary];");
      (2, "[details setValue:_error forKey:NSLocalizedDescriptionKey];");
      (2, "*error = [NSError errorWithDomain:errDomain code:1 userInfo:details];");
      (1, "}");
      (1, "go_seq_free(&in_);");
      (1, "go_seq_free(&out_);");
      (1, "return ([_error length] == 0);") ].
Proof. vm_compute. reflexivity. Qed.

(** C1 at testpkg: a fresh and a stale generator print the same file, and
    retyping every declaration leaves the call-site table as it is. *)
Lemma code_assignment_deterministic_witness :
  r_out (genM go_helpers (newGen testpkg)) = r_out (genM go_helpers stale_gen) /\
  call_sites (r_out (genM go_helpers (newGen testpkg)))
  = skeleton_sites (skeleton testpkg) /\
  call_sites (r_out (genM go_helpers (newGen testpkg)))
  = call_sites (r_out (genM go_helpers (newGen (retype testpkg)))).
Proof.
  split; [|split].
  - apply (proj1 (code_assignment_deterministic go_helpers (newGen testpkg) stale_gen)).
    reflexivity.
  - apply (proj1 (proj2 (code_assignment_deterministic go_helpers (newGen testpkg) stale_gen))).
    vm_compute. reflexivity.
  - apply (proj2 (proj2 (code_assignment_deterministic go_helpers (newGen testpkg)
                           (newGen (retype testpkg))))).
    + vm_compute. reflexivity.
    + vm_compute. reflexivity.
    + vm_compute. reflexivity.
Defined.

(** C2 at testpkg: [Sum] is the ninth exported function. *)
Lemma free_function_codes_witness :
  nth_error (funcs (init (newGen testpkg))) 8 = Some testpkg_Sum_func /\
  In (IDefine "_CALL_Sum_" "9") (r_out (genM go_helpers (newGen testpkg))) /\
  c_int_literal "9" = Some 9%Z /\
  macro_value (r_out (genM go_helpers (newGen testpkg))) "_DESCRIPTOR_"
  = Some (fmt_q "testpkg").
Proof.
  assert (H : nth_error (funcs (init (newGen testpkg))) 8 = Some testpkg_Sum_func)
    by reflexivity.
  destruct (free_function_codes go_helpers (newGen testpkg) 8 testpkg_Sum_func H)
    as (_ & Hd & _ & Hin & Hv & _).
  repeat split; assumption.
Defined.

(** C3 at struct S of testpkg. *)
Lemma struct_code_families_witness :
  In (IDefine "_GO_testpkg_S_FIELD_Y_GET_" "(0x10f)")
     (out_of (genStructM go_helpers (init (newGen testpkg)) testpkg_S)) /\
  In (IDefine "_GO_testpkg_S_FIELD_Y_SET_" "(0x11f)")
     (out_of (genStructM go_helpers (init (newGen testpkg)) testpkg_S)) /\
  In (IDefine "_GO_testpkg_S_TryTwoStrings_" "(0x10c)")
     (out_of (genStructM go_helpers (init (newGen testpkg)) testpkg_S)).
Proof.
  destruct (struct_code_families go_helpers (init (newGen testpkg)) testpkg_S 1 1 1)
    as (_ & Hf & Hm & _).
  destruct (Hf (mkVar "Y" t_float64) eq_refl) as [Hg Hs].
  pose proof (Hm (mkFunc "TryTwoStrings" [mkVar "first" t_string; mkVar "second" t_string]
                    [mkVar "" t_string]) eq_refl) as Hk.
  repeat split; assumption.
Defined.

(** C4 at three functions. *)
Lemma funcSummary_by_result_count_witness :
  objcGen_funcSummary go_helpers (init (newGen testpkg)) func_three
  = Done None [ErrTooManyResults "Three"] [] /\
  objcGen_funcSummary go_helpers (init (newGen testpkg)) func_pair
  = Done None [ErrSecondResult "Pair"] [] /\
  exists s,
    objcGen_funcSummary go_helpers (init (newGen testpkg)) func_check = Done (Some s) [] [] /\
    s_ret s = "BOOL" /\ returnsVal s = false.
Proof.
  split; [|split].
  - apply (proj1 (funcSummary_by_result_count go_helpers (init (newGen testpkg)) func_three)).
    simpl. lia.
  - apply (proj1 (proj2 (funcSummary_by_result_count go_helpers (init (newGen testpkg))
                           func_pair)) (mkVar "" t_string) (mkVar "" t_string));
      reflexivity.
  - destruct (proj2 (proj2 (funcSummary_by_result_count go_helpers (init (newGen testpkg))
                              func_check)) (mkVar "" types.Error) eq_refl eq_refl)
      as (s & Hs & Hr & _ & Hv).
    exists s. repeat split; assumption.
Defined.

(** C5 as stated fails: two results, the second not an error, and the
    diagnostic recorded is not of the too-many-results kind. *)
Lemma two_results_not_TooManyResults :
  f_results func_pair = [mkVar "" t_string; mkVar "" t_string] /\
  isErrorType t_string = false /\
  ~ In TooManyResults
       (map classify
          (err_of (objcGen_funcSummary go_helpers (init (newGen testpkg)) func_pair))).
Proof.
  split; [reflexivity | split; [reflexivity|]].
  vm_compute. intros [H | []]. discriminate H.
Qed.

(** C5, as amended, at [Pair]. *)
Lemma two_results_second_not_error_witness :
  objcGen_funcSummary go_helpers (init (newGen testpkg)) func_pair
  = Done None [ErrSecondResult "Pair"] [] /\
  genFuncM go_helpers (init (newGen testpkg)) func_pair
  = Done tt [ErrSecondResult "Pair"] [].
Proof.
  destruct (two_results_second_not_error go_helpers (init (newGen testpkg)) func_pair
              (mkVar "" t_string) (mkVar "" t_string) eq_refl eq_refl)
    as (H1 & _ & H2).
  split; assumption.
Defined.

(** C6 as stated fails: the descriptor of the members of struct S of
    testpkg is "go.testpkg.S", in both halves, not "testpkg.S". *)
Lemma struct_descriptor_not_pkg_dot_type :
  exists v,
    macro_value (r_out (genM go_helpers (newGen testpkg))) "_GO_testpkg_S_DESCRIPTOR_"
    = Some v /\
    c_string_literal v = Some proxyS_Descriptor /\
    proxyS_Descriptor <> Name testpkg ++ "." ++ tn_name testpkg_S.
Proof.
  exists (fmt_q "go.testpkg.S"). split; [vm_compute; reflexivity|].
  split; [vm_compute; reflexivity|].
  vm_compute. discriminate.
Qed.

(** C7 as stated fails: the callee returns an error whose text is empty;
    the dispatcher writes the empty string and the stub reports success,
    storing no error. *)
Lemma empty_message_error_reads_as_success :
  snd (testpkg_ReturnsError testpkg_empty_error false) <> None /\
  proxy_ReturnsError testpkg_empty_error [] [("Bool", VBool false)]
  = Some ([("UTF8", VStr ""); ("UTF8", VStr "")], []) /\
  exists m',
    exec_list (send_ReturnsError testpkg_empty_error)
      (stub_body go_helpers (init (newGen testpkg)) testpkg_ReturnsError_func)
      (call_cells false)
    = Ret (VBool true) m' /\
    assocN 1 (mem m') = None.
Proof.
  split; [discriminate|]. split; [reflexivity|].
  eexists. split; vm_compute; reflexivity.
Qed.

(** C7, as amended, at [ReturnsError] of testpkg, called with false and
    with the addresses of two cells. *)
Lemma failure_message_channel_witness :
  proxy_ReturnsError testpkg_model [] [("Bool", VBool false)]
  = Some ([("UTF8", VStr ""); ("UTF8", VStr "Error")], []) /\
  exists m',
    exec_list (send_ReturnsError testpkg_model)
      (stub_body go_helpers (init (newGen testpkg)) testpkg_ReturnsError_func)
      (call_cells false)
    = Ret (VBool false) m' /\
    assocN 1 (mem m') = Some (VErr "Error").
Proof.
  destruct (failure_message_channel go_helpers testpkg_model false [] []
              (send_ReturnsError testpkg_model) (init (newGen testpkg))
              testpkg_ReturnsError_func ReturnsError_summary [] []
              "_DESCRIPTOR_" "_CALL_ReturnsError_" false
              (stub_body go_helpers (init (newGen testpkg)) testpkg_ReturnsError_func)
              [] [] (call_cells false))
    as (Hd & _ & Hstub).
  split; [exact Hd|].
  destruct Hstub as (msg & m' & Hl & Hx & Hcell).
  - reflexivity.
  - reflexivity.
  - discriminate.
  - reflexivity.
  - reflexivity.
  - repeat constructor; eexists; split; reflexivity.
  - reflexivity.
  - vm_compute in Hl. injection Hl as <-.
    exists m'. split; [exact Hx|].
    apply (Hcell 1); [reflexivity | discriminate].
Defined.

(** C8 at a package with a map parameter: the stub of the other function is
    printed and generation returns failure. *)
Lemma unsupported_types_are_collected_witness :
  fst (objcType (init (newGen badpkg)) t_map) = "TODO" /\
  returns (genM go_helpers (newGen badpkg)) = true /\
  (exists h body,
     In (IFunc h body) (r_out (genM go_helpers (newGen badpkg))) /\
     In (SSend "_DESCRIPTOR_" "_CALL_Zero_") body) /\
  returned_error (genM go_helpers (newGen badpkg)) <> None.
Proof.
  destruct (unsupported_types_are_collected go_helpers (newGen badpkg) t_map)
    as (Hu & _ & _ & Hrun).
  assert (Hbad : unsupported (init (newGen badpkg)) t_map) by apply U_map.
  destruct (Hu Hbad) as [Ht _].
  destruct (Hrun eq_refl) as [Hret Hf].
  destruct (Hf badpkg_Zero ltac:(simpl; tauto) eq_refl) as [Hstub _].
  destruct (Hf badpkg_Keys ltac:(simpl; tauto) eq_refl) as [_ Herr].
  destruct (Herr (mkVar "m" t_map) ltac:(simpl; tauto) eq_refl Hbad) as [Hfail _].
  repeat split; assumption.
Defined.

(** C9 as stated fails: the stub of [NewS] decodes the same handle twice, in
    a runtime where no object is attached to it, and returns two different
    wrappers. *)
Lemma same_handle_decoded_twice_gives_two_wrappers :
  exists w1 m1 w2 m2,
    exec_list (send_ref 7)
      (stub_body go_helpers (init (newGen testpkg)) testpkg_NewS_func)
      (call_NewS [] [] 0)
    = Ret (VObj w1) m1 /\
    exec_list (send_ref 7)
      (stub_body go_helpers (init (newGen testpkg)) testpkg_NewS_func)
      (call_NewS (attached m1) (wrappers m1) (next_obj m1))
    = Ret (VObj w2) m2 /\
    w1 <> w2.
Proof.
  eexists _, _, _, _. split; [vm_compute; reflexivity|].
  split; [vm_compute; reflexivity|]. discriminate.
Qed.

(** C9, as amended, at [NewS]: with an object attached to the handle the
    stub returns it, and with none it allocates. *)
Lemma object_results_get_or_allocate_witness :
  (exists m',
     exec_list (send_ref 7)
       (stub_body go_helpers (init (newGen testpkg)) testpkg_NewS_func)
       (call_NewS [(7%Z, 3)] [] 4)
     = Ret (VObj 3) m' /\ next_obj m' = 4) /\
  (exists m',
     exec_list (send_ref 7)
       (stub_body go_helpers (init (newGen testpkg)) testpkg_NewS_func)
       (call_NewS [] [] 4)
     = Ret (VObj 4) m' /\ wrappers m' = [(4, 7%Z)] /\ attached m' = []).
Proof.
  destruct (object_results_get_or_allocate go_helpers (send_ref 7) (init (newGen testpkg))
              NewS_summary "_DESCRIPTOR_" "_CALL_NewS_" false
              (stub_body go_helpers (init (newGen testpkg)) testpkg_NewS_func)
              [] [] 7%Z)
    as (Hrun & _ & _).
  - reflexivity.
  - intros p [<- | []]. reflexivity.
  - reflexivity.
  - split.
    + destruct (Hrun (call_NewS [(7%Z, 3)] [] 4) eq_refl eq_refl)
        as (w & m' & Hx & _ & Hcase).
      cbn in Hcase. destruct Hcase as (-> & _ & Hn).
      exists m'. split; assumption.
    + destruct (Hrun (call_NewS [] [] 4) eq_refl eq_refl)
        as (w & m' & Hx & Ha & Hcase).
      cbn in Hcase. destruct Hcase as (-> & Hw & _).
      exists m'. repeat split; assumption.
Defined.

(** C10 at [ReturnsError] of testpkg, called with NULL for both
    out-parameters. *)
Lemma null_out_parameters_are_safe_witness :
  forallb (guarded [])
    (stub_body go_helpers (init (newGen testpkg)) testpkg_ReturnsError_func) = true /\
  exists flag m',
    exec_list (send_ReturnsError testpkg_model)
      (stub_body go_helpers (init (newGen testpkg)) testpkg_ReturnsError_func)
      (call_null false)
    = Ret (VBool flag) m' /\
    mem m' = [] /\
    freed m' = [("in_", [("Bool", VBool false)]); ("out_", [])].
Proof.
  destruct (null_out_parameters_are_safe go_helpers (send_ReturnsError testpkg_model)
              (init (newGen testpkg)) testpkg_ReturnsError_func ReturnsError_summary [] []
              "_DESCRIPTOR_" "_CALL_ReturnsError_" false
              (stub_body go_helpers (init (newGen testpkg)) testpkg_ReturnsError_func)
              [] [] (call_null false))
    as (Hg & flag & m' & Hx & Hm & _ & _ & Hf).
  - reflexivity.
  - reflexivity.
  - discriminate.
  - reflexivity.
  - reflexivity.
  - repeat constructor.
  - reflexivity.
  - split; [exact Hg|]. exists flag, m'. repeat split; assumption.
Defined.
